(** * FreeLLMsTxt: the discovery engine and the llms.txt renderer

    A shallow embedding of [src/app.py] (class [AsyncWebCrawler] and
    [generate_llms_txt]) and of the parts of [src/crawler.py] (class
    [WebCrawler]) that differ from it, followed by the properties of the
    specification that were checked against them.

    Conventions.
    - A Python [str] is a [string]: a sequence of 8-bit characters, [len]
      is [String.length].  The model is exact on ASCII text.
    - A Python [int] is a [Z]; list slicing follows Python for negative
      bounds.
    - The HTTP client, the HTML parser and the XML parser are library
      code: they are variables of the section that embeds the crawler. *)

From Stdlib Require Import String Ascii List ZArith Lia Bool Arith.
From Stdlib Require DecimalString.
From Stdlib Require Import Sorted Permutation NArith.
Import ListNotations.
Open Scope string_scope.
Open Scope list_scope.

Set Implicit Arguments.

(* ------------------------------------------------------------------ *)
(** ** Python string primitives *)

Module PyStr.

(** Truth value of a string: [bool(s)]. *)
Definition truthy (s : string) : bool := negb (s =? "")%string.

(** [s.startswith(p)] *)
Definition startswith (s p : string) : bool := prefix p s.

(** [s[:n]] and [s[n:]] for a non-negative literal [n]. *)
Fixpoint take (n : nat) (s : string) : string :=
  match n, s with
  | S n', String a s' => String a (take n' s')
  | _, _ => ""
  end.

Fixpoint drop (n : nat) (s : string) : string :=
  match n, s with
  | S n', String _ s' => drop n' s'
  | _, _ => s
  end.

(** [s.rstrip(c)] for a one-character argument: every trailing [c] goes. *)
Fixpoint rstrip (c : ascii) (s : string) : string :=
  match s with
  | "" => ""
  | String a s' =>
      match rstrip c s' with
      | "" => if (a =? c)%char then "" else String a ""
      | r => String a r
      end
  end.

(** [sub in s] *)
Fixpoint contains (sub s : string) : bool :=
  prefix sub s ||
  match s with
  | "" => false
  | String _ s' => contains sub s'
  end.

(** [s.replace(old, new)] for a non-empty [old]: occurrences are found
    left to right and do not overlap.  [skip] counts the characters of a
    matched occurrence that are still to be passed over. *)
Fixpoint replace_from (old new : string) (skip : nat) (s : string) : string :=
  match s with
  | "" => ""
  | String a s' =>
      match skip with
      | S k => replace_from old new k s'
      | O =>
          if prefix old s
          then (new ++ replace_from old new (String.length old - 1) s')%string
          else String a (replace_from old new 0 s')
      end
  end.

Definition replace (old new s : string) : string := replace_from old new 0 s.

(** [s.split(sep)] for a non-empty [sep], as the first piece and the
    list of the following ones. *)
Fixpoint split_from (sep : string) (skip : nat) (s : string) : string * list string :=
  match s with
  | "" => ("", [])
  | String a s' =>
      match skip with
      | S k => split_from sep k s'
      | O =>
          if prefix sep s
          then let (p, ps) := split_from sep (String.length sep - 1) s' in ("", p :: ps)
          else let (p, ps) := split_from sep 0 s' in (String a p, ps)
      end
  end.

Definition split (sep s : string) : list string :=
  let (p, ps) := split_from sep 0 s in p :: ps.

(** [s.split(sep)[0]] *)
Definition split_head (sep s : string) : string := fst (split_from sep 0 s).

(** [s.split(sep)[-1]]; [split] never returns an empty list. *)
Definition split_last (sep s : string) : string := last (split sep s) "".

(** [s.split(sep, 1)]: at most one cut. *)
Fixpoint split_once_from (sep : string) (s : string) : string * option string :=
  match s with
  | "" => ("", None)
  | String a s' =>
      if prefix sep s
      then ("", Some (drop (String.length sep) s))
      else let (p, r) := split_once_from sep s' in (String a p, r)
  end.

(** Characters that [str.isspace] accepts among the first 256 code points. *)
Definition isspace (a : ascii) : bool :=
  let n := nat_of_ascii a in
  (((9 <=? n) && (n <=? 13)) || ((28 <=? n) && (n <=? 32))
   || (n =? 133) || (n =? 160))%nat.

Fixpoint lstrip_ws (s : string) : string :=
  match s with
  | "" => ""
  | String a s' => if isspace a then lstrip_ws s' else s
  end.

Fixpoint rstrip_ws (s : string) : string :=
  match s with
  | "" => ""
  | String a s' =>
      match rstrip_ws s' with
      | "" => if isspace a then "" else String a ""
      | r => String a r
      end
  end.

(** [s.strip()] *)
Definition strip (s : string) : string := rstrip_ws (lstrip_ws s).

Definition isupper (a : ascii) : bool :=
  let n := nat_of_ascii a in ((65 <=? n) && (n <=? 90))%nat.
Definition islower (a : ascii) : bool :=
  let n := nat_of_ascii a in ((97 <=? n) && (n <=? 122))%nat.
Definition isalpha (a : ascii) : bool := isupper a || islower a.
Definition isdigit (a : ascii) : bool :=
  let n := nat_of_ascii a in ((48 <=? n) && (n <=? 57))%nat.

Definition to_lower (a : ascii) : ascii :=
  if isupper a then ascii_of_nat (nat_of_ascii a + 32) else a.
Definition to_upper (a : ascii) : ascii :=
  if islower a then ascii_of_nat (nat_of_ascii a - 32) else a.

(** [s.lower()] *)
Fixpoint lower (s : string) : string :=
  match s with
  | "" => ""
  | String a s' => String (to_lower a) (lower s')
  end.

(** [s.title()]: a letter that follows a letter is lowered, any other
    letter is raised.  [prev] tells whether the previous character was a
    letter. *)
Fixpoint title_from (prev : bool) (s : string) : string :=
  match s with
  | "" => ""
  | String a s' =>
      String (if prev then to_lower a else to_upper a)
             (title_from (isalpha a) s')
  end.

Definition titlecase (s : string) : string := title_from false s.


(** [s.splitlines()] on the ASCII line boundaries: LF, CR, CRLF, VT, FF,
    FS, GS, RS (and NEL). *)
Definition islinebreak (a : ascii) : bool :=
  let n := nat_of_ascii a in
  (((10 <=? n) && (n <=? 13)) || ((28 <=? n) && (n <=? 30)) || (n =? 133))%nat.

Fixpoint splitlines_from (after_cr : bool) (s : string) : string * list string * bool :=
  (* returns the text of the current line, the following lines, and
     whether any character was read *)
  match s with
  | "" => ("", [], false)
  | String a s' =>
      if after_cr && (nat_of_ascii a =? 10)%nat then splitlines_from false s'
      else if islinebreak a then
        let '(p, ps, more) := splitlines_from (nat_of_ascii a =? 13)%nat s' in
        ("", if more then p :: ps else [], true)
      else
        let '(p, ps, _) := splitlines_from false s' in
        (String a p, ps, true)
  end.

Definition splitlines (s : string) : list string :=
  let '(p, ps, more) := splitlines_from false s in
  if more then p :: ps else [].

End PyStr.

(* ------------------------------------------------------------------ *)
(** ** [urllib.parse.urlparse]

    The components of a URL as CPython's [urlsplit] and [urlparse] compute
    them.  The [ValueError]s of [urlsplit] (unbalanced brackets in the
    network location, characters that normalise to a delimiter) are not
    modelled. *)

Module Urllib.
Import PyStr.

Record ParseResult := {
  scheme : string;
  netloc : string;
  path : string;
  params : string;
  query : string;
  fragment : string
}.

Definition is_c0_or_space (a : ascii) : bool := (nat_of_ascii a <=? 32)%nat.
Definition is_unsafe (a : ascii) : bool :=
  let n := nat_of_ascii a in ((n =? 9) || (n =? 10) || (n =? 13))%nat.

Fixpoint lstrip_c0 (s : string) : string :=
  match s with
  | "" => ""
  | String a s' => if is_c0_or_space a then lstrip_c0 s' else s
  end.

Fixpoint remove_unsafe (s : string) : string :=
  match s with
  | "" => ""
  | String a s' =>
      if is_unsafe a then remove_unsafe s' else String a (remove_unsafe s')
  end.

Definition scheme_char (a : ascii) : bool :=
  isalpha a || isdigit a || (a =? "+")%char || (a =? "-")%char || (a =? ".")%char.

(** The text before the first [:] when it only has scheme characters,
    with the text after that [:]. *)
Fixpoint scan_scheme (s : string) : option (string * string) :=
  match s with
  | "" => None
  | String a s' =>
      if (a =? ":")%char then Some ("", s')
      else if scheme_char a then
        match scan_scheme s' with
        | Some (sch, rest) => Some (String a sch, rest)
        | None => None
        end
      else None
  end.

Definition split_scheme (url : string) : string * string :=
  match url with
  | String a _ =>
      if isalpha a then
        match scan_scheme url with
        | Some (sch, rest) => (lower sch, rest)
        | None => ("", url)
        end
      else ("", url)
  | "" => ("", url)
  end.

(** [s[:i]] and [s[i:]] for the first [i] with [stop s[i]], the whole of
    [s] and the empty string when there is none. *)
Fixpoint break_at (stop : ascii -> bool) (s : string) : string * string :=
  match s with
  | "" => ("", "")
  | String a s' =>
      if stop a then ("", s)
      else let (p, r) := break_at stop s' in (String a p, r)
  end.

Definition netloc_delim (a : ascii) : bool :=
  (a =? "/")%char || (a =? "?")%char || (a =? "#")%char.

(** [_splitnetloc(url, 2)] behind the test [url[:2] == '//']. *)
Definition split_netloc (url : string) : string * string :=
  if prefix "//" url then break_at netloc_delim (drop 2 url) else ("", url).

(** [url.split(c, 1)] behind the test [c in url]. *)
Definition cut (c : ascii) (url : string) : string * string :=
  let (p, r) := break_at (fun a => (a =? c)%char) url in (p, drop 1 r).

Definition uses_params : list string :=
  [""; "ftp"; "hdl"; "prospero"; "http"; "imap"; "https"; "shttp"; "rtsp";
   "rtspu"; "sip"; "sips"; "mms"; "sftp"; "tel"].

(** [_splitparams]: the parameters are what follows the first [;] of the
    last path segment. *)
Fixpoint splitparams (url : string) : string * string :=
  match url with
  | "" => ("", "")
  | String a s' =>
      if contains "/" s' then
        let (p, r) := splitparams s' in (String a p, r)
      else cut ";" url
  end.

Definition urlparse (url : string) : ParseResult :=
  let url := remove_unsafe (lstrip_c0 url) in
  let (sch, url) := split_scheme url in
  let (loc, url) := split_netloc url in
  let (url, frag) := cut "#" url in
  let (url, qry) := cut "?" url in
  let (url, prm) :=
    if existsb (String.eqb sch) uses_params then splitparams url else (url, "") in
  {| scheme := sch; netloc := loc; path := url; params := prm;
     query := qry; fragment := frag |}.

End Urllib.

(* ------------------------------------------------------------------ *)
(** ** Python list and integer idioms *)

Module PyList.

(** [x in l] for a list (or a set) of strings. *)
Definition mem (x : string) (l : list string) : bool :=
  existsb (String.eqb x) l.

(** [if x not in l: l.append(x)] *)
Definition append_new (l : list string) (x : string) : list string :=
  if mem x l then l else l ++ [x].

(** [list(dict.fromkeys(l))]: the keys of a dictionary keep the order of
    their first insertion. *)
Definition dict_fromkeys (l : list string) : list string :=
  fold_left append_new l [].

(** [l[:n]], also for a negative [n]. *)
Definition slice_to {A : Type} (n : Z) (l : list A) : list A :=
  if (0 <=? n)%Z then firstn (Z.to_nat n) l
  else firstn (Z.to_nat (Z.of_nat (length l) + n)) l.

(** [bool(l)] *)
Definition nonempty {A : Type} (l : list A) : bool :=
  match l with [] => false | _ :: _ => true end.

(** [str(n)] for a length or a counter. *)
Definition str (n : nat) : string :=
  DecimalString.NilZero.string_of_uint (Nat.to_uint n).

End PyList.

(* ------------------------------------------------------------------ *)
(** ** External collaborators *)

(** [httpx]: [http_get url] is [client.get(url)], [raise_for_status()] and
    [.text] in one step; [None] stands for an [httpx.HTTPError].  The
    [World] is everything a request may depend on or change. *)
Class HttpClient := {
  World : Type;
  http_get : string -> World -> option string * World
}.

(** [xml.etree.ElementTree]: an element has a tag, a text and children. *)
#[warnings="-register-all"]
Inductive Element : Type :=
| Elem (tag : string) (text : option string) (children : list Element).

Definition tag (e : Element) : string := let (t, _, _) := e in t.
Definition text (e : Element) : option string := let (_, t, _) := e in t.
Definition children (e : Element) : list Element := let (_, _, c) := e in c.

(** [re_sub_xmlns s] is [re.sub(r'xmlns[^"]*"[^"]*"', '', s)];
    [ET_fromstring] is [None] for an [ET.ParseError]. *)
Class XmlParser := {
  re_sub_xmlns : string -> string;
  ET_fromstring : string -> option Element
}.

(** [bs4]: the queries the crawler makes on a parsed document.
    - [soup_title]: [get_text(strip=True)] of [soup.find('title')];
    - [soup_meta k v]: [.get('content')] of [soup.find('meta', attrs={k: v})],
      [None] when the tag or the attribute is missing;
    - [soup_texts]: [get_text(strip=True)] of each tag of
      [soup.find_all(['p', 'article', 'main'])], in document order;
    - [soup_hrefs]: [anchor['href']] of each tag of
      [soup.find_all('a', href=True)], in document order. *)
Class HtmlParser := {
  Soup : Type;
  BeautifulSoup : string -> Soup;
  soup_title : Soup -> option string;
  soup_meta : string -> string -> Soup -> option string;
  soup_texts : Soup -> list string;
  soup_hrefs : Soup -> list string
}.

(** [urllib.parse.urljoin] *)
Class UrlJoin := { urljoin : string -> string -> string }.

(* ------------------------------------------------------------------ *)
(** ** The two crawler classes

    [WebCrawler] ([src/crawler.py]) and [AsyncWebCrawler] ([src/app.py])
    run the same discovery; they differ in [_is_same_domain] and in where
    their messages go (the console for the first, [self.logs] for the
    second). *)

Module WebCrawler.
Import PyStr Urllib.

Definition _normalize_url (url : string) : string :=
  let url :=
    if negb (startswith url "http://" || startswith url "https://")
    then ("https://" ++ url)%string else url in
  rstrip "/" url.

Definition _is_same_domain (base_url url : string) : bool :=
  let base_domain := netloc (urlparse base_url) in
  let url_domain := netloc (urlparse url) in
  (base_domain =? url_domain)%string.

End WebCrawler.

Module AsyncWebCrawler.
Import PyStr Urllib.

Definition _normalize_url (url : string) : string :=
  let url :=
    if negb (startswith url "http://" || startswith url "https://")
    then ("https://" ++ url)%string else url in
  rstrip "/" url.

Definition _is_same_domain (base_url url : string) : bool :=
  let base_domain := netloc (urlparse base_url) in
  let url_domain := netloc (urlparse url) in
  (* Handle www vs non-www *)
  let base_clean := replace "www." "" base_domain in
  let url_clean := replace "www." "" url_domain in
  (base_clean =? url_clean)%string.

End AsyncWebCrawler.

(** What one class fixes and the other does differently. *)
Class CrawlerClass := {
  _normalize_url : string -> string;
  _is_same_domain : string -> string -> bool
}.

Definition crawler_py : CrawlerClass :=
  {| _normalize_url := WebCrawler._normalize_url;
     _is_same_domain := WebCrawler._is_same_domain |}.

Definition app_py : CrawlerClass :=
  {| _normalize_url := AsyncWebCrawler._normalize_url;
     _is_same_domain := AsyncWebCrawler._is_same_domain |}.

Record PageInfo := {
  url : string;
  title : string;
  description : string;
  content_preview : string;
  links : list string
}.

(** The fields of [self] that the discovery reads. *)
Record Crawler := {
  base_url : string;
  max_urls : Z
}.

(* ------------------------------------------------------------------ *)
(** ** The discovery engine

    The methods of [AsyncWebCrawler], with the state they thread made
    explicit: the world behind the HTTP client, the requests sent so far
    and [self.logs]. *)

Section Monad.
Context {H : HttpClient}.

Record State := {
  world : World;
  requests : list string;
  logs : list string
}.

(** A computation reads and writes the state; [None] is a loop that ran
    out of fuel. *)
Definition M (A : Type) : Type := State -> option (A * State).

Definition ret {A : Type} (a : A) : M A := fun st => Some (a, st).

Definition bind {A B : Type} (m : M A) (k : A -> M B) : M B :=
  fun st =>
    match m st with
    | Some (a, st') => k a st'
    | None => None
    end.

Definition out_of_fuel {A : Type} : M A := fun _ => None.

End Monad.

Notation "x <- m ;; k" := (bind m (fun x => k))
  (at level 61, m at next level, right associativity).
Notation "m ;;; k" := (bind m (fun _ => k))
  (at level 61, right associativity).

Section Engine.
Context {H : HttpClient} {X : XmlParser} {P : HtmlParser} {U : UrlJoin}
        {C : CrawlerClass}.
Import PyStr PyList.

Definition __init__ (base_url : string) (max_urls : Z) : Crawler :=
  {| base_url := _normalize_url base_url; max_urls := max_urls |}.

Definition _log (message : string) : M unit :=
  fun st =>
    Some (tt, {| world := world st; requests := requests st;
                 logs := logs st ++ [message] |}).

(** [client.get(url)], [raise_for_status()] and [.text]: the request is
    recorded and the world answers. *)
Definition send (url : string) : M (option string) :=
  fun st =>
    let (response, w) := http_get url (world st) in
    Some (response, {| world := w; requests := requests st ++ [url];
                       logs := logs st |}).

Definition _fetch (url : string) : M (option string) :=
  response <- send url ;;
  match response with
  | Some body => ret (Some body)
  | None => _log ("⚠️ Failed: " ++ url)%string ;;; ret None
  end.

(** [bool(content)] for an [Optional[str]]. *)
Definition truthy_opt (content : option string) : bool :=
  match content with
  | Some s => truthy s
  | None => false
  end.

Definition body_of (content : option string) : string :=
  match content with
  | Some s => s
  | None => ""
  end.

(** *** Sitemaps *)

(** [root.findall('.//name')]: the elements below [root], in document
    order, whose tag is [name]. *)
Fixpoint descendants (e : Element) : list Element :=
  match e with
  | Elem _ _ cs => flat_map (fun c => c :: descendants c) cs
  end.

Definition findall (name : string) (root : Element) : list Element :=
  filter (fun e => (tag e =? name)%string) (descendants root).

(** [e.find('loc')] and the test [loc is not None and loc.text], then
    [loc.text.strip()]. *)
Definition loc_of (e : Element) : list string :=
  match find (fun c => (tag c =? "loc")%string) (children e) with
  | Some loc =>
      match text loc with
      | Some t => if truthy t then [strip t] else []
      | None => []
      end
  | None => []
  end.

Definition _parse_sitemap (xml_content : string) : list string * list string :=
  let xml_content := re_sub_xmlns xml_content in
  match ET_fromstring xml_content with
  | Some root =>
      let nested_sitemaps := flat_map loc_of (findall "sitemap" root) in
      let urls := flat_map loc_of (findall "url" root) in
      (urls, nested_sitemaps)
  | None => ([], [])
  end.

Definition _find_sitemaps_in_robots (robots_content : string) : list string :=
  flat_map
    (fun line =>
       let line := strip line in
       if startswith (lower line) "sitemap:" then
         match snd (split_once_from ":" line) with
         | Some rest =>
             let sitemap_url := strip rest in
             if truthy sitemap_url then [sitemap_url] else []
         | None => []
         end
       else [])
    (splitlines robots_content).

(** The loop over [sitemap_urls]; [recur nested] is the recursive call
    [self._crawl_sitemaps(client, nested, depth + 1)]. *)
Fixpoint sitemaps_loop (recur : list string -> M (list string))
         (todo : list string) (all_urls : list string) : M (list string) :=
  match todo with
  | [] => ret all_urls
  | sitemap_url :: todo' =>
      _log ("📄 Parsing sitemap: " ++ sitemap_url)%string ;;;
      content <- _fetch sitemap_url ;;
      if negb (truthy_opt content) then sitemaps_loop recur todo' all_urls
      else
        let (urls, nested_sitemaps) := _parse_sitemap (body_of content) in
        let all_urls := all_urls ++ urls in
        if nonempty nested_sitemaps then
          _log ("📁 Found " ++ str (length nested_sitemaps)
                ++ " nested sitemap(s)")%string ;;;
          below <- recur nested_sitemaps ;;
          sitemaps_loop recur todo' (all_urls ++ below)
        else sitemaps_loop recur todo' all_urls
  end.

Fixpoint _crawl_sitemaps (fuel : nat) (sitemap_urls : list string) (depth : Z)
  : M (list string) :=
  match fuel with
  | O => out_of_fuel
  | S fuel' =>
      if (depth >? 3)%Z then ret []
      else
        sitemaps_loop (fun nested => _crawl_sitemaps fuel' nested (depth + 1))
                      sitemap_urls []
  end.

(** The depth grows by one with each recursive call and a call above
    depth 3 returns at once, whatever the sitemaps hold: this much fuel is
    enough. *)
Definition sitemap_fuel (depth : Z) : nat := S (Z.to_nat (4 - depth)).

(** *** Links and page records *)

Definition skipped_href (href : string) : bool :=
  startswith href "#" || startswith href "javascript:"
  || startswith href "mailto:" || startswith href "tel:".

Fixpoint extract_links_loop (self : Crawler) (page_url : string)
         (hrefs : list string) (links : list string) : list string :=
  match hrefs with
  | [] => links
  | href :: hrefs' =>
      if skipped_href href then extract_links_loop self page_url hrefs' links
      else
        let full_url := urljoin page_url href in
        let full_url := split_head "#" full_url in
        if _is_same_domain (base_url self) full_url && negb (mem full_url links)
        then extract_links_loop self page_url hrefs' (links ++ [full_url])
        else extract_links_loop self page_url hrefs' links
  end.

(** The second parameter is the page's own URL (the method calls it
    [base_url]). *)
Definition _extract_links_from_html (self : Crawler) (html page_url : string)
  : list string :=
  let soup := BeautifulSoup html in
  extract_links_loop self page_url (soup_hrefs soup) [].

(** The loop over [soup.find_all(['p', 'article', 'main'])]. *)
Fixpoint first_significant (texts : list string) : string :=
  match texts with
  | [] => ""
  | t :: texts' =>
      if (100 <? String.length t)%nat then
        if (500 <? String.length t)%nat then (take 500 t ++ "...")%string else t
      else first_significant texts'
  end.

Definition _extract_page_info (self : Crawler) (page_url html : string) : PageInfo :=
  let soup := BeautifulSoup html in
  let page_title :=
    match soup_title soup with
    | Some t => t
    | None => ""
    end in
  let desc :=
    match soup_meta "name" "description" soup with
    | Some c => if truthy c then c else ""
    | None => ""
    end in
  let desc :=
    if negb (truthy desc) then
      match soup_meta "property" "og:description" soup with
      | Some c => if truthy c then c else desc
      | None => desc
      end
    else desc in
  let preview := first_significant (soup_texts soup) in
  let page_links := _extract_links_from_html self html page_url in
  {| url := page_url; title := page_title; description := desc;
     content_preview := preview; links := page_links |}.


(** *** The fallback: crawling from the homepage *)

(** [for link in links: if link not in visited and link not in
    urls_to_visit: urls_to_visit.append(link)] *)
Definition enqueue (visited : list string) (urls_to_visit links : list string)
  : list string :=
  fold_left
    (fun queue link =>
       if negb (mem link visited) && negb (mem link queue)
       then queue ++ [link] else queue)
    links urls_to_visit.

(** The [while] loop; one unit of fuel per turn. *)
Fixpoint homepage_loop (self : Crawler) (fuel : nat)
         (urls_to_visit visited discovered : list string) : M (list string) :=
  match fuel with
  | O => out_of_fuel
  | S fuel' =>
      match urls_to_visit with
      | [] => ret discovered
      | current_url :: urls_to_visit' =>
          if (Z.of_nat (length discovered) <? max_urls self)%Z then
            if mem current_url visited
            then homepage_loop self fuel' urls_to_visit' visited discovered
            else
              let visited := current_url :: visited in
              _log ("🌐 Crawling: " ++ current_url)%string ;;;
              html <- _fetch current_url ;;
              if negb (truthy_opt html)
              then homepage_loop self fuel' urls_to_visit' visited discovered
              else
                let discovered := discovered ++ [current_url] in
                let found := _extract_links_from_html self (body_of html) current_url in
                homepage_loop self fuel' (enqueue visited urls_to_visit' found)
                              visited discovered
          else ret discovered
      end
  end.

Definition _crawl_from_homepage (self : Crawler) (fuel : nat) : M (list string) :=
  _log "🔍 No sitemap found. Crawling from homepage..." ;;;
  homepage_loop self fuel [base_url self] [] [].

(** *** The orchestrator *)

Definition SITEMAP_VARIATIONS : list string :=
  ["/sitemap.xml"; "/sitemap_index.xml"; "/sitemap-index.xml"; "/sitemaps.xml";
   "/sitemap1.xml"; "/sitemap/sitemap.xml"; "/wp-sitemap.xml";
   "/post-sitemap.xml"; "/page-sitemap.xml"].

Definition is_sitemap (content : option string) : bool :=
  truthy_opt content
  && (contains "<urlset" (body_of content)
      || contains "<sitemapindex" (body_of content)).

(** The loop over the patterns, left by [break] at the first sitemap. *)
Fixpoint variations_loop (self : Crawler) (patterns : list string)
  : M (list string) :=
  match patterns with
  | [] => ret []
  | pattern :: patterns' =>
      let sitemap_url := (base_url self ++ pattern)%string in
      content <- _fetch sitemap_url ;;
      if is_sitemap content then
        _log ("✅ Found sitemap: " ++ sitemap_url)%string ;;;
        ret [sitemap_url]
      else variations_loop self patterns'
  end.

(** [WebCrawler._try_sitemap_variations]; in [AsyncWebCrawler] the same
    lines stand in [discover_and_crawl]. *)
Definition _try_sitemap_variations (self : Crawler) : M (list string) :=
  _log "🔎 Trying common sitemap patterns..." ;;;
  variations_loop self SITEMAP_VARIATIONS.

(** The discovery of the URLs: [WebCrawler.discover_urls], and the first
    half of [AsyncWebCrawler.discover_and_crawl], whose messages are the
    ones logged here.  [fuel] is for the fallback loop. *)
Definition discover_urls (self : Crawler) (fuel : nat) : M (list string) :=
  _log ("🚀 Starting crawl of " ++ base_url self)%string ;;;
  (* Check robots.txt *)
  let robots_url := (base_url self ++ "/robots.txt")%string in
  _log "🤖 Checking robots.txt" ;;;
  robots_content <- _fetch robots_url ;;
  sitemap_urls <-
    (if truthy_opt robots_content then
       let found := _find_sitemaps_in_robots (body_of robots_content) in
       (if nonempty found
        then _log ("✅ Found " ++ str (length found)
                   ++ " sitemap(s) in robots.txt")%string
        else ret tt) ;;;
       ret found
     else ret []) ;;
  (* Try sitemap variations *)
  sitemap_urls <-
    (if negb (nonempty sitemap_urls) then _try_sitemap_variations self
     else ret sitemap_urls) ;;
  (* Parse sitemaps *)
  all_urls <-
    (if nonempty sitemap_urls then
       found <- _crawl_sitemaps (sitemap_fuel 0) sitemap_urls 0 ;;
       _log ("✅ Found " ++ str (length found) ++ " URLs from sitemaps")%string ;;;
       ret found
     else ret []) ;;
  (* Fallback to HTML crawling *)
  all_urls <-
    (if negb (nonempty all_urls) then _crawl_from_homepage self fuel
     else ret all_urls) ;;
  (* Dedupe and limit *)
  let unique_urls := slice_to (max_urls self) (dict_fromkeys all_urls) in
  _log ("📊 Discovered " ++ str (length unique_urls) ++ " unique URLs")%string ;;;
  ret unique_urls.

(** The loop over [enumerate(unique_urls, 1)]. *)
Fixpoint pages_loop (self : Crawler) (total i : nat) (urls : list string)
         (pages : list PageInfo) : M (list PageInfo) :=
  match urls with
  | [] => ret pages
  | page_url :: urls' =>
      _log ("[" ++ str i ++ "/" ++ str total ++ "] Fetching: " ++ page_url)%string ;;;
      html <- _fetch page_url ;;
      if truthy_opt html then
        let page_info := _extract_page_info self page_url (body_of html) in
        pages_loop self total (S i) urls' (pages ++ [page_info])
      else pages_loop self total (S i) urls' pages
  end.

(** The extraction of the pages: [WebCrawler.crawl_pages], and the second
    half of [AsyncWebCrawler.discover_and_crawl]. *)
Definition crawl_pages (self : Crawler) (urls : list string) : M (list PageInfo) :=
  _log "📝 Extracting page information..." ;;;
  pages_loop self (length urls) 1 urls [].

Definition discover_and_crawl (self : Crawler) (fuel : nat)
  : M (list PageInfo * list string) :=
  unique_urls <- discover_urls self fuel ;;
  pages <- crawl_pages self unique_urls ;;
  _log ("✨ Complete! Crawled " ++ str (length pages) ++ " pages")%string ;;;
  fun st => Some ((pages, logs st), st).

End Engine.

(* ------------------------------------------------------------------ *)
(** ** The generator: [generate_llms_txt] *)

Module Generator.
Import PyStr PyList Urllib.

(** [sorted(l, key=...)] where [lt a b] compares the keys of [a] and [b]:
    a stable sort, written as an insertion sort. *)
Section Sorted.
Variable A : Type.
Variable lt : A -> A -> bool.

Fixpoint insert (x : A) (l : list A) : list A :=
  match l with
  | [] => [x]
  | y :: l' => if lt y x then y :: insert x l' else x :: l
  end.

Definition sorted (l : list A) : list A := fold_right insert [] l.
End Sorted.

(** [t.split(' | ')[0].split(' - ')[0].strip()] *)
Definition clean_title (t : string) : string :=
  strip (split_head " - " (split_head " | " t)).

Definition is_homepage (base_url : string) (page : PageInfo) : bool :=
  (rstrip "/" (url page) =? rstrip "/" base_url)%string
  || (rstrip "/" (url page) =? rstrip "/" (replace "://" "://www." base_url))%string.

Definition category_of (page : PageInfo) : string :=
  let parsed := urlparse (url page) in
  let path_parts := filter truthy (split "/" (path parsed)) in
  match path_parts with
  | [] => "Main"
  | first :: _ => titlecase (replace "_" " " (replace "-" " " first))
  end.

(** [categories] is a dictionary from a category to its pages; its keys
    keep the order of their first insertion. *)
Definition Categories : Type := list (string * list PageInfo).

Fixpoint add_page (category : string) (page : PageInfo) (categories : Categories)
  : Categories :=
  match categories with
  | [] => [(category, [page])]
  | (k, v) :: rest =>
      if (k =? category)%string then (k, v ++ [page]) :: rest
      else (k, v) :: add_page category page rest
  end.

Definition categorize (pages : list PageInfo) : Categories :=
  fold_left (fun categories page => add_page (category_of page) page categories)
            pages [].

Fixpoint lookup (category : string) (categories : Categories) : list PageInfo :=
  match categories with
  | [] => []
  | (k, v) :: rest => if (k =? category)%string then v else lookup category rest
  end.

(** The order of the keys [(x != "Main", x)]. *)
Definition category_lt (x y : string) : bool :=
  let kx := negb (x =? "Main")%string in
  let ky := negb (y =? "Main")%string in
  if Bool.eqb kx ky then (x <? y)%string else negb kx.

Definition url_lt (p q : PageInfo) : bool := (url p <? url q)%string.

(** The title of a page before it is shortened:
    [page.title.split(' | ')[0].split(' - ')[0].strip() if page.title else page.url] *)
Definition shown_title (page : PageInfo) : string :=
  if truthy (title page) then clean_title (title page) else url page.

(** [if len(title) > 80: title = title[:77] + "..."] *)
Definition shorten_title (t : string) : string :=
  if (80 <? String.length t)%nat then (take 77 t ++ "...")%string else t.

(** [page.description[:200] + "..." if len(page.description) > 200 else
    page.description] *)
Definition shorten_description (d : string) : string :=
  if (200 <? String.length d)%nat then (take 200 d ++ "...")%string else d.

(** [link = f"- [{title}]({page.url})"], then the description when the
    page has one. *)
Definition bullet (link_title : string) (page : PageInfo) : string :=
  let link := ("- [" ++ link_title ++ "](" ++ url page ++ ")")%string in
  if truthy (description page)
  then (link ++ ": " ++ shorten_description (description page))%string
  else link.

(** The link title of the single bullet of a lone Main page. *)
Definition main_link_title (page : PageInfo) : string :=
  shorten_title (shown_title page).

(** The link title of a bullet under a heading. *)
Definition section_link_title (page : PageInfo) : string :=
  let t := shorten_title (shown_title page) in
  if negb (truthy t) then
    let segment := split_last "/" (url page) in
    if truthy segment then segment else "Page"
  else t.

Definition main_bullet (page : PageInfo) : string :=
  bullet (main_link_title page) page.

Definition section_bullet (page : PageInfo) : string :=
  bullet (section_link_title page) page.

(** One turn of the loop over [sorted_categories]. *)
Definition render_category (category : string) (cat_pages : list PageInfo)
  : list string :=
  if (category =? "Main")%string && (length cat_pages =? 1)%nat then
    match cat_pages with
    | page :: _ => [main_bullet page]
    | [] => []
    end
  else
    [("## " ++ category)%string; ""]
      ++ map section_bullet (sorted url_lt cat_pages) ++ [""].

Definition site_header (base_url : string) (pages : list PageInfo) : string * string :=
  let domain := netloc (urlparse base_url) in
  let site_title := titlecase (split_head "." (replace "www." "" domain)) in
  let site_description := ("Documentation and resources from " ++ domain)%string in
  match find (is_homepage base_url) pages with
  | Some page =>
      (if truthy (title page) then clean_title (title page) else site_title,
       if truthy (description page) then description page else site_description)
  | None => (site_title, site_description)
  end.

(** The list [lines] when it is joined; [today] is
    [datetime.now().strftime('%Y-%m-%d')]. *)
Definition document_lines (today base_url : string) (pages : list PageInfo)
  : list string :=
  let (site_title, site_description) := site_header base_url pages in
  let categories := categorize pages in
  let lines := [("# " ++ site_title)%string; ""; ("> " ++ site_description)%string; ""] in
  let sorted_categories := sorted category_lt (map fst categories) in
  let lines :=
    lines ++ flat_map (fun category =>
                         render_category category (lookup category categories))
                      sorted_categories in
  lines ++ [""; "---"; ("Generated by FreeLLMsTxt on " ++ today)%string;
            ("Source: " ++ base_url)%string].

Definition newline : string := String (ascii_of_nat 10) "".


End Generator.

(* ------------------------------------------------------------------ *)
(** ** The routes: [POST /generate] and [GET /llms.txt]

    Each request builds an [AsyncWebCrawler] of its own, whose log starts
    empty, and runs it against the world.  The client's errors are caught
    in [_fetch] and the XML parser's in [_parse_sitemap], so that no step
    of the engine raises and the [except Exception] of [generate] has
    nothing to answer. *)

Module Routes.




Section Routes.
Context {H : HttpClient} {X : XmlParser} {P : HtmlParser} {U : UrlJoin}.
Import PyList Generator.




End Routes.

End Routes.

(* ------------------------------------------------------------------ *)
(** ** Vocabulary of the statements *)

Module Spec.
Import PyStr.

(** The test of [_normalize_url]: the URL starts with a scheme. *)
Definition has_scheme (u : string) : bool :=
  startswith u "http://" || startswith u "https://".

(** A host without one leading [www.]. *)
Definition strip_www (host : string) : string :=
  if startswith host "www." then drop 4 host else host.

(** A list without its repetitions, each element where it is first
    seen. *)
Fixpoint first_seen (l : list string) : list string :=
  match l with
  | [] => []
  | x :: l' => x :: filter (fun y => negb (y =? x)%string) (first_seen l')
  end.

(** The pages that share the category of [page]. *)
Definition same_category (pages : list PageInfo) (page : PageInfo) : list PageInfo :=
  filter (fun q => (Generator.category_of q =? Generator.category_of page)%string)
         pages.

(** The bullet of [page] in the document for [pages]: a page alone in
    the category Main has the single bullet, any other page has a bullet
    under a heading. *)
Definition bullet_of (pages : list PageInfo) (page : PageInfo) : string :=
  if (Generator.category_of page =? "Main")%string
     && (length (same_category pages page) =? 1)%nat
  then Generator.main_bullet page else Generator.section_bullet page.


(** An entry of the document that is the bullet of a page. *)
Definition is_bullet (line : string) : bool := startswith line "- [".

(** A line of text: no character at which [splitlines] cuts. *)
Fixpoint no_linebreak (s : string) : bool :=
  match s with
  | "" => true
  | String a s' => negb (islinebreak a) && no_linebreak s'
  end.

(** A URL as a [robots.txt] can name it: not empty, without white space
    around it, on one line. *)
Definition clean_url (u : string) : Prop :=
  u <> "" /\ strip u = u /\ no_linebreak u = true.

(** The [robots.txt] that names the sitemaps [urls], one directive a
    line. *)
Fixpoint robots_of (urls : list string) : string :=
  match urls with
  | [] => ""
  | u :: urls' =>
      ("Sitemap: " ++ u ++ Generator.newline ++ robots_of urls')%string
  end.

(** An entry of a sitemap document: [<kind><loc>location</loc></kind>]. *)
Definition entry (e : string * string) : Element :=
  Elem (fst e) None [Elem "loc" (Some (snd e)) []].

(** The locations of the entries of one kind, as [_parse_sitemap] keeps
    them: those with a text, stripped. *)
Definition locations (kind : string) (entries : list (string * string))
  : list string :=
  map strip
      (filter truthy
              (map snd (filter (fun e => (fst e =? kind)%string) entries))).

Section Responses.
Context {H : HttpClient} {X : XmlParser} {P : HtmlParser} {U : UrlJoin}
        {C : CrawlerClass}.

(** The state after a message: one more line in the log. *)
Definition logged (message : string) (st : State) : State :=
  {| world := world st; requests := requests st;
     logs := logs st ++ [message] |}.

(** A computation that returns from every state, and one that does
    so when it is given enough fuel. *)
Definition Total {A : Type} (m : M A) : Prop :=
  forall st, exists r, m st = Some r.

Definition Terminates {A : Type} (mf : nat -> M A) : Prop :=
  forall st, exists fuel r, mf fuel st = Some r.

(** A computation that leaves the lines of the log where they are and
    puts its own after them. *)
Definition Appends {A : Type} (m : M A) : Prop :=
  forall st a st',
    m st = Some (a, st') -> exists added, logs st' = logs st ++ added.

(** What the world answers to a sequence of requests, and the world
    they leave. *)
Fixpoint responses_of (urls : list string) (w : World)
  : list (option string) * World :=
  match urls with
  | [] => ([], w)
  | u :: urls' =>
      let (response, w1) := http_get u w in
      let (rest, w2) := responses_of urls' w1 in
      (response :: rest, w2)
  end.

(** The links that the [href]s of a page stand for, before
    repetitions go: the skipped ones are left out, the others are
    joined to the page's URL and cut at the fragment, and those of
    another domain are left out. *)
Definition candidates (self : Crawler) (page_url : string)
           (hrefs : list string) : list string :=
  filter (_is_same_domain (base_url self))
         (map (fun href => split_head "#" (urljoin page_url href))
              (filter (fun href => negb (skipped_href href)) hrefs)).

(** The expansion with an explicit count of the levels that are left:
    none at depth 4, one at depth 3, four at depth 0. *)
Fixpoint expand (levels : nat) (sitemap_urls : list string) : M (list string) :=
  match levels with
  | O => ret []
  | S levels' => sitemaps_loop (expand levels') sitemap_urls []
  end.

(** The page URLs that the sitemaps behind a list of responses name
    themselves, their nested sitemaps set aside. *)
Definition leaves_of (responses : list (option string)) : list string :=
  flat_map
    (fun r => if truthy_opt r then fst (_parse_sitemap (body_of r)) else [])
    responses.

(** The page records of the requests that brought a body back. *)
Definition extracted (self : Crawler) (urls : list string)
           (responses : list (option string)) : list PageInfo :=
  flat_map
    (fun ur : string * option string =>
       if truthy_opt (snd ur)
       then [_extract_page_info self (fst ur) (body_of (snd ur))]
       else [])
    (combine urls responses).
End Responses.

End Spec.

(* ------------------------------------------------------------------ *)
(** ** Sample inputs *)

Module Samples.

Definition page (u t d : string) : PageInfo :=
  {| url := u; title := t; description := d; content_preview := "";
     links := [] |}.

(** A page under [/blog] and a homepage, both without a title. *)
Definition blog_post : PageInfo := page "https://x.com/blog/post" "" "".
Definition bare_home : PageInfo := page "https://x.com" "" "".

Definition xs (n : nat) : string := string_of_list_ascii (repeat "x"%char n).

(** A homepage whose description has 201 characters. *)
Definition wordy_home : PageInfo := page "https://x.com" "Acme" (xs 201).

(** *** Small worlds

    A site that answers every request from a table, an XML parser and an
    HTML parser that read the documents of the samples from tables, and a
    [urljoin] for absolute references. *)

Fixpoint assoc {A : Type} (key : string) (table : list (string * A)) : option A :=
  match table with
  | [] => None
  | (k, v) :: table' => if (k =? key)%string then Some v else assoc key table'
  end.

Definition static_web (site : list (string * string)) : HttpClient :=
  {| World := unit; http_get := fun u w => (assoc u site, w) |}.

Definition table_xml (documents : list (string * Element)) : XmlParser :=
  {| re_sub_xmlns := fun s => s;
     ET_fromstring := fun s => assoc s documents |}.

(** A document is known by its title and the [href]s of its anchors. *)
Definition table_html (documents : list (string * (option string * list string)))
  : HtmlParser :=
  {| Soup := option (option string * list string);
     BeautifulSoup := fun html => assoc html documents;
     soup_title := fun soup =>
                     match soup with
                     | Some (t, _) => t
                     | None => None
                     end;
     soup_meta := fun _ _ _ => None;
     soup_texts := fun _ => [];
     soup_hrefs := fun soup =>
                     match soup with
                     | Some (_, hrefs) => hrefs
                     | None => []
                     end |}.

Definition absolute_join : UrlJoin := {| urljoin := fun _ href => href |}.

Definition start {H : HttpClient} (w : World) : State :=
  {| world := w; requests := []; logs := [] |}.

(** A sitemap index that names itself: every request is answered by an
    index whose only entry is [https://x.com/sitemap.xml]. *)
Definition index_of_itself : string :=
  "<sitemapindex><sitemap><loc>https://x.com/sitemap.xml</loc></sitemap></sitemapindex>".

Definition cyclic_web : HttpClient :=
  {| World := unit; http_get := fun _ w => (Some index_of_itself, w) |}.

Definition cyclic_xml : XmlParser :=
  table_xml
    [(index_of_itself,
      Elem "sitemapindex" None
           [Elem "sitemap" None
                 [Elem "loc" (Some "https://x.com/sitemap.xml") []]])].

Definition cyclic_start : @State cyclic_web := @start cyclic_web tt.

(** A site with a sitemap of two pages, named in its [robots.txt]. *)
Definition sitemap_of_two : string :=
  "<urlset><url><loc>https://x.com/a</loc></url><url><loc>https://x.com/b</loc></url></urlset>".

Definition mapped_web : HttpClient :=
  static_web
    [("https://x.com/robots.txt", "Sitemap: https://x.com/s.xml");
     ("https://x.com/s.xml", sitemap_of_two);
     ("https://x.com/a", "<title>A</title>");
     ("https://x.com/b", "<title>B</title>")].

Definition mapped_xml : XmlParser :=
  table_xml
    [(sitemap_of_two,
      Elem "urlset" None
           [Elem "url" None [Elem "loc" (Some "https://x.com/a") []];
            Elem "url" None [Elem "loc" (Some "https://x.com/b") []]])].

Definition mapped_html : HtmlParser :=
  table_html
    [("<title>A</title>", (Some "A", []));
     ("<title>B</title>", (Some "B", []))].

Definition mapped_start : @State mapped_web := @start mapped_web tt.

(** The discovery on that site, for [AsyncWebCrawler("x.com", max)]. *)
Definition mapped_crawl (max : Z)
  : option (list PageInfo * list string * @State mapped_web) :=
  @discover_and_crawl mapped_web mapped_xml mapped_html absolute_join app_py
                      (@__init__ app_py "x.com" max) 0 mapped_start.

(** A site without a sitemap: the homepage links to two pages, one of
    which is missing. *)
Definition home_html : string :=
  "<title>home</title><a href='https://x.com/a'>a</a><a href='#top'>top</a><a href='https://x.com/b'>b</a><a href='https://x.com/a#more'>more</a><a href='mailto:me@x.com'>me</a><a href='https://other.org/'>other</a>".

Definition a_html : string :=
  "<title>A</title><a href='https://x.com'>home</a>".

Definition linked_web : HttpClient :=
  static_web [("https://x.com", home_html); ("https://x.com/a", a_html)].

Definition linked_html : HtmlParser :=
  table_html
    [(home_html,
      (Some "home",
       ["https://x.com/a"; "#top"; "https://x.com/b"; "https://x.com/a#more";
        "mailto:me@x.com"; "https://other.org/"]));
     (a_html, (Some "A", ["https://x.com"]))].

Definition linked_start : @State linked_web := @start linked_web tt.

(** A site whose second well-known path holds a sitemap index. *)
Definition indexed_web : HttpClient :=
  static_web
    [("https://x.com/sitemap_index.xml", "<sitemapindex></sitemapindex>");
     ("https://x.com/wp-sitemap.xml", "<urlset></urlset>")].

Definition indexed_start : @State indexed_web := @start indexed_web tt.

End Samples.

(* ================================================================== *)
(** * Properties *)

Unset Implicit Arguments.

(** ** Strings *)

Section StringFacts.
Import PyStr.

Lemma rstrip_cons (c a : ascii) (s : string) :
  rstrip c (String a s) =
  match rstrip c s with
  | "" => if (a =? c)%char then "" else String a ""
  | r => String a r
  end.
Proof. reflexivity. Qed.

Lemma rstrip_idem (c : ascii) (s : string) :
  rstrip c (rstrip c s) = rstrip c s.
Proof.
  induction s as [|a s IH]; [reflexivity|].
  rewrite rstrip_cons.
  destruct (rstrip c s) as [|b r] eqn:E.
  - destruct (a =? c)%char eqn:Ea; [reflexivity|].
    simpl. now rewrite Ea.
  - rewrite rstrip_cons, IH. reflexivity.
Qed.

(** [rstrip] takes a run of [c] from the end of the string, and the whole
    of it: what is left does not end with [c]. *)
Lemma rstrip_decompose (c : ascii) (s : string) :
  exists n, s = (rstrip c s ++ string_of_list_ascii (repeat c n))%string.
Proof.
  induction s as [|a s [n IH]]; [now exists 0|].
  rewrite rstrip_cons.
  destruct (rstrip c s) as [|b r] eqn:E.
  - destruct (Ascii.eqb_spec a c) as [->|Hne].
    + exists (S n). simpl in *. now rewrite IH at 1.
    + exists n. simpl in *. now rewrite IH at 1.
  - exists n. simpl in *. now rewrite IH at 1.
Qed.

Lemma rstrip_no_trailing (c : ascii) (s t : string) :
  rstrip c s <> (t ++ String c "")%string.
Proof.
  revert t; induction s as [|a s IH]; intros t.
  - destruct t; discriminate.
  - rewrite rstrip_cons.
    destruct (rstrip c s) as [|b r] eqn:E.
    + destruct (Ascii.eqb_spec a c) as [->|Hne].
      * destruct t; discriminate.
      * destruct t as [|a' [|a'' t]]; simpl; try discriminate.
        intros [= ->]. contradiction.
    + destruct t as [|a' t]; simpl.
      * discriminate.
      * intros [= -> Heq]. exact (IH t Heq).
Qed.

(** A string that keeps its last character through [rstrip] keeps any
    prefix put before it. *)
Lemma rstrip_app_fixed (c : ascii) (p s : string) :
  s <> "" -> rstrip c s = s -> rstrip c (p ++ s) = (p ++ s)%string.
Proof.
  intros Hne Hs. induction p as [|a p IH]; [exact Hs|].
  simpl. rewrite IH.
  destruct (p ++ s)%string eqn:E; [|reflexivity].
  destruct p; simpl in E; [contradiction | discriminate].
Qed.

Lemma rstrip_head (c a : ascii) (s : string) :
  (a =? c)%char = false -> exists r, rstrip c (String a s) = String a r.
Proof.
  intros Ha. rewrite rstrip_cons.
  destruct (rstrip c s) as [|b r]; rewrite ?Ha; eauto.
Qed.

Lemma append_assoc (s t u : string) :
  ((s ++ t) ++ u = s ++ t ++ u)%string.
Proof. induction s; simpl; congruence. Qed.

Lemma append_nil_r (s : string) : (s ++ "")%string = s.
Proof. induction s; simpl; congruence. Qed.

Lemma length_append (s t : string) :
  String.length (s ++ t) = String.length s + String.length t.
Proof. induction s; simpl; congruence. Qed.

Lemma length_take (n : nat) (s : string) :
  n <= String.length s -> String.length (take n s) = n.
Proof.
  revert s; induction n as [|n IH]; intros [|a s] Hn; simpl in *;
    try reflexivity; try lia.
  rewrite IH; lia.
Qed.

Lemma take_all (n : nat) (s : string) :
  String.length s <= n -> take n s = s.
Proof.
  revert s; induction n as [|n IH]; intros [|a s] Hn; simpl in *;
    try reflexivity; try lia.
  rewrite IH; [reflexivity | lia].
Qed.

Lemma truthy_true (s : string) : truthy s = true <-> s <> "".
Proof.
  unfold truthy. destruct (String.eqb_spec s ""); simpl; split;
    congruence.
Qed.

Lemma truthy_false (s : string) : truthy s = false <-> s = "".
Proof.
  unfold truthy. destruct (String.eqb_spec s ""); simpl; split;
    congruence.
Qed.

Lemma prefix_empty (s : string) : prefix "" s = true.
Proof. destruct s; reflexivity. Qed.

(** The piece before the first separator holds no separator: for a
    one-character separator, the character is not in it. *)
Lemma split_head_char (c : ascii) (s : string) :
  contains (String c "") (split_head (String c "") s) = false.
Proof.
  unfold split_head.
  induction s as [|a s IH]; [reflexivity|].
  cbn [split_from]. cbn [prefix].
  destruct (Ascii.ascii_dec c a) as [->|Hne].
  - cbn [String.length Nat.sub].
    destruct (split_from (String a "") 0 s) as [p ps].
    rewrite prefix_empty. reflexivity.
  - destruct (split_from (String c "") 0 s) as [p ps] eqn:E.
    cbn [fst] in *. cbn [contains prefix].
    destruct (Ascii.ascii_dec c a); [contradiction|].
    exact IH.
Qed.

End StringFacts.

(** ** The URL normalizer *)

Section Normalizer.
Import PyStr Urllib Spec.

Lemma prefix_append (p s : string) :
  prefix p s = true -> s = (p ++ drop (String.length p) s)%string.
Proof.
  revert s; induction p as [|a p IH]; intros [|b s] Hp; simpl in *;
    try reflexivity; try discriminate.
  destruct (Ascii.ascii_dec a b) as [->|]; [|discriminate].
  f_equal. now apply IH.
Qed.

Lemma rstrip_app_keep (c : ascii) (p s : string) :
  rstrip c s <> "" -> rstrip c (p ++ s) = (p ++ rstrip c s)%string.
Proof.
  intros Hne. induction p as [|a p IH]; [reflexivity|].
  simpl. rewrite IH.
  destruct (p ++ rstrip c s)%string eqn:E; [|reflexivity].
  destruct p; simpl in E; [contradiction | discriminate].
Qed.

Lemma normalize_unfold (u : string) :
  AsyncWebCrawler._normalize_url u =
  rstrip "/" (if has_scheme u then u else "https://" ++ u)%string.
Proof.
  unfold AsyncWebCrawler._normalize_url, has_scheme.
  destruct (startswith u "http://" || startswith u "https://"); reflexivity.
Qed.

Lemma WebCrawler_normalize_url (u : string) :
  WebCrawler._normalize_url u = AsyncWebCrawler._normalize_url u.
Proof. reflexivity. Qed.

(** What [_normalize_url] returns starts with an [h] and does not end
    with a slash. *)
Lemma normalize_shape (u : string) :
  exists r, AsyncWebCrawler._normalize_url u = String "h" r.
Proof.
  rewrite normalize_unfold.
  destruct (has_scheme u) eqn:Hs.
  - unfold has_scheme, startswith in Hs.
    apply orb_true_iff in Hs as [Hs|Hs]; apply prefix_append in Hs;
      rewrite Hs; apply rstrip_head; reflexivity.
  - apply rstrip_head; reflexivity.
Qed.

Lemma normalize_rstrip (u : string) :
  rstrip "/" (AsyncWebCrawler._normalize_url u) = AsyncWebCrawler._normalize_url u.
Proof. rewrite normalize_unfold. apply rstrip_idem. Qed.

(** When the first result has lost its scheme, the second call puts a
    new one before it. *)
Lemma normalize_twice_without_scheme (base : string) :
  has_scheme (AsyncWebCrawler._normalize_url base) = false ->
  AsyncWebCrawler._normalize_url (AsyncWebCrawler._normalize_url base)
  = ("https://" ++ AsyncWebCrawler._normalize_url base)%string.
Proof.
  intros Hs. rewrite (normalize_unfold (AsyncWebCrawler._normalize_url base)), Hs.
  apply rstrip_app_fixed.
  - destruct (normalize_shape base) as [r ->]. discriminate.
  - apply normalize_rstrip.
Qed.

(** The scheme survives as soon as something other than slashes follows
    it. *)
Lemma normalize_keeps_scheme (base : string) :
  has_scheme base = false -> rstrip "/" base <> "" ->
  AsyncWebCrawler._normalize_url base = ("https://" ++ rstrip "/" base)%string.
Proof.
  intros Hs Hne. rewrite normalize_unfold, Hs.
  now apply rstrip_app_keep.
Qed.

(** C5, as the code has it: a second [_normalize_url] changes nothing
    whenever the first result still starts with [http://] or
    [https://]. *)
Theorem normalize_idempotent_with_scheme (base : string) :
  has_scheme (AsyncWebCrawler._normalize_url base) = true ->
  AsyncWebCrawler._normalize_url (AsyncWebCrawler._normalize_url base)
  = AsyncWebCrawler._normalize_url base.
Proof.
  intros Hs.
  rewrite (normalize_unfold (AsyncWebCrawler._normalize_url base)), Hs.
  apply normalize_rstrip.
Qed.

Lemma normalize_idempotent_with_scheme_witness :
  has_scheme (AsyncWebCrawler._normalize_url "x.com/") = true
  /\ AsyncWebCrawler._normalize_url (AsyncWebCrawler._normalize_url "x.com/")
     = "https://x.com".
Proof.
  split; [reflexivity|].
  rewrite (normalize_idempotent_with_scheme "x.com/"); reflexivity.
Defined.

(** C5, as the specification states it, fails: on the empty base the
    trailing slashes of the scheme itself are stripped, and the second
    call adds a scheme again. *)
Lemma normalize_not_idempotent :
  AsyncWebCrawler._normalize_url "" = "https:"
  /\ AsyncWebCrawler._normalize_url (AsyncWebCrawler._normalize_url "")
     = "https://https:"
  /\ AsyncWebCrawler._normalize_url (AsyncWebCrawler._normalize_url "")
     <> AsyncWebCrawler._normalize_url "".
Proof. repeat split; try reflexivity. discriminate. Qed.

(** The same happens for a base that is a scheme alone. *)
Example normalize_scheme_alone :
  AsyncWebCrawler._normalize_url "https://" = "https:"
  /\ AsyncWebCrawler._normalize_url "https:" = "https://https:".
Proof. split; reflexivity. Qed.

End Normalizer.

(** ** Same-domain membership *)

Section SameDomain.
Import PyStr Urllib Spec.

Lemma replace_www_prefix (host : string) :
  replace "www." "" ("www." ++ host) = replace "www." "" host.
Proof. destruct host; reflexivity. Qed.

Lemma replace_strip_www (host : string) :
  replace "www." "" (strip_www host) = replace "www." "" host.
Proof.
  unfold strip_www, startswith.
  destruct (prefix "www." host) eqn:Hp; [|reflexivity].
  apply prefix_append in Hp. rewrite Hp at 2.
  symmetry. apply replace_www_prefix.
Qed.

(** [AsyncWebCrawler]: two hosts that agree once a leading [www.] is
    taken from each are the same domain. *)
Lemma same_domain_of_www_variant (base_url url : string) :
  strip_www (netloc (urlparse base_url)) = strip_www (netloc (urlparse url)) ->
  AsyncWebCrawler._is_same_domain base_url url = true.
Proof.
  intros Heq. unfold AsyncWebCrawler._is_same_domain.
  rewrite <- (replace_strip_www (netloc (urlparse base_url))).
  rewrite <- (replace_strip_www (netloc (urlparse url))).
  rewrite Heq. apply String.eqb_refl.
Qed.

(** [WebCrawler]: the same domain is the same network location. *)
Lemma WebCrawler_same_domain_iff (base_url url : string) :
  WebCrawler._is_same_domain base_url url = true
  <-> netloc (urlparse base_url) = netloc (urlparse url).
Proof. unfold WebCrawler._is_same_domain. apply String.eqb_eq. Qed.

Example same_domain_www :
  AsyncWebCrawler._is_same_domain "https://x.com" "https://www.x.com/a" = true.
Proof. reflexivity. Qed.

Example same_domain_sub :
  AsyncWebCrawler._is_same_domain "https://x.com" "https://sub.x.com" = false.
Proof. reflexivity. Qed.

(** C1 on two inputs where the code leaves it.
    - [AsyncWebCrawler] removes every [www.] of a host, not a leading one:
      [awww.x.com] and [ax.com] differ after a leading [www.] is
      stripped, and are the same domain for the code.
    - [WebCrawler] strips nothing: [www.x.com] and [x.com] agree after
      stripping, and are different domains for the code. *)
Theorem same_domain_failing_inputs :
  (strip_www (netloc (urlparse "https://ax.com"))
     <> strip_www (netloc (urlparse "https://awww.x.com/"))
   /\ AsyncWebCrawler._is_same_domain "https://ax.com" "https://awww.x.com/" = true)
  /\ (strip_www (netloc (urlparse "https://x.com"))
        = strip_www (netloc (urlparse "https://www.x.com/a"))
      /\ WebCrawler._is_same_domain "https://x.com" "https://www.x.com/a" = false).
Proof.
  split; split; try reflexivity.
  vm_compute. discriminate.
Qed.

End SameDomain.

(** ** The content preview of a page record *)

Section ContentPreview.
Context {P : HtmlParser} {U : UrlJoin} {C : CrawlerClass}.
Import PyStr.

(** The loop stops at the first text of more than 100 characters. *)
Lemma first_significant_split (texts : list string) :
  (first_significant texts = ""
   /\ Forall (fun t => String.length t <= 100) texts)
  \/ (exists before t after,
         texts = before ++ t :: after
         /\ Forall (fun t => String.length t <= 100) before
         /\ 100 < String.length t
         /\ first_significant texts
            = if (500 <? String.length t)%nat then (take 500 t ++ "...")%string else t).
Proof.
  induction texts as [|t texts IH].
  - left. split; [reflexivity | constructor].
  - simpl. destruct (Nat.ltb_spec 100 (String.length t)) as [Hlt|Hle].
    + right. exists [], t, texts. repeat split; auto.
    + destruct IH as [[Hnil Hall]|(before & t' & after & -> & Hall & Hlt & Heq)].
      * left. split; [exact Hnil | now constructor].
      * right. exists (t :: before), t', after. repeat split; auto.
Qed.

Lemma length_cut (n : nat) (t : string) :
  n < String.length t -> String.length (take n t ++ "...") = n + 3.
Proof.
  intros Hn. rewrite length_append, length_take by lia. reflexivity.
Qed.

(** C10: the content preview of a page record is empty, or the first
    text of more than 100 characters: whole when it has at most 500
    characters, its first 500 characters and ["..."] otherwise; so a
    preview that is not empty has more than 100 and at most 503
    characters. *)
Theorem content_preview_bounds (self : Crawler) (page_url html : string) :
  let preview := content_preview (_extract_page_info self page_url html) in
  let texts := soup_texts (BeautifulSoup html) in
  (preview = "" /\ Forall (fun t => String.length t <= 100) texts)
  \/ (exists before t after,
         texts = before ++ t :: after
         /\ Forall (fun t => String.length t <= 100) before
         /\ 100 < String.length t
         /\ ((500 < String.length t
              /\ preview = (take 500 t ++ "...")%string
              /\ String.length preview = 503)
             \/ (String.length t <= 500 /\ preview = t))
         /\ 100 < String.length preview <= 503).
Proof.
  intros preview texts. subst preview. cbn [_extract_page_info content_preview].
  fold texts.
  destruct (first_significant_split texts)
    as [[Hnil Hall]|(before & t & after & Htexts & Hall & Hlt & Heq)].
  - left. auto.
  - right. exists before, t, after. rewrite Heq.
    destruct (Nat.ltb_spec 500 (String.length t)) as [Hbig|Hsmall].
    + pose proof (length_cut 500 t Hbig) as Hlen.
      change (500 + 3) with 503 in Hlen.
      split; [exact Htexts|]. split; [exact Hall|]. split; [exact Hlt|].
      split; [left; auto | lia].
    + split; [exact Htexts|]. split; [exact Hall|]. split; [exact Hlt|].
      split; [right; auto | lia].
Qed.

Example content_preview_cut :
  first_significant ["short"; string_of_list_ascii (repeat "a"%char 501)]
  = (string_of_list_ascii (repeat "a"%char 500) ++ "...")%string.
Proof. vm_compute. reflexivity. Qed.

End ContentPreview.

(** ** The generator *)

Section GeneratorFacts.
Import PyStr PyList Urllib Generator Spec.

(** *** Sorting keeps the elements *)

Lemma insert_In (A : Type) (lt : A -> A -> bool) (x y : A) (l : list A) :
  In y (insert lt x l) <-> y = x \/ In y l.
Proof.
  induction l as [|z l IH]; simpl.
  - intuition congruence.
  - destruct (lt z x); simpl; rewrite ?IH; intuition congruence.
Qed.

Lemma sorted_In (A : Type) (lt : A -> A -> bool) (l : list A) (x : A) :
  In x (sorted lt l) <-> In x l.
Proof.
  induction l as [|y l IH]; simpl; [tauto|].
  rewrite insert_In, IH. intuition congruence.
Qed.

(** *** The dictionary of categories *)

Lemma lookup_add_page (c c' : string) (p : PageInfo) (cats : Categories) :
  lookup c' (add_page c p cats)
  = if (c =? c')%string then lookup c' cats ++ [p] else lookup c' cats.
Proof.
  induction cats as [|[k v] cats IH]; simpl.
  - destruct (c =? c')%string; reflexivity.
  - destruct (String.eqb_spec k c) as [->|Hkc]; simpl.
    + destruct (c =? c')%string; reflexivity.
    + rewrite IH. destruct (String.eqb_spec k c') as [->|Hkc'];
        [|reflexivity].
      destruct (String.eqb_spec c c'); [congruence | reflexivity].
Qed.

Lemma keys_add_page (c k : string) (p : PageInfo) (cats : Categories) :
  In k (map fst (add_page c p cats)) <-> k = c \/ In k (map fst cats).
Proof.
  induction cats as [|[k' v] cats IH]; simpl.
  - intuition congruence.
  - destruct (String.eqb_spec k' c) as [->|Hne]; simpl.
    + intuition congruence.
    + rewrite IH. intuition congruence.
Qed.

Lemma lookup_fold (pages : list PageInfo) (cats : Categories) (c : string) :
  lookup c (fold_left (fun cs p => add_page (category_of p) p cs) pages cats)
  = lookup c cats ++ filter (fun p => (category_of p =? c)%string) pages.
Proof.
  revert cats; induction pages as [|p pages IH]; intros cats; simpl.
  - now rewrite app_nil_r.
  - rewrite IH, lookup_add_page.
    destruct (category_of p =? c)%string; simpl;
      now rewrite <- ?app_assoc.
Qed.

(** A category holds its pages in the order of [pages]. *)
Lemma lookup_categorize (pages : list PageInfo) (c : string) :
  lookup c (categorize pages)
  = filter (fun p => (category_of p =? c)%string) pages.
Proof. unfold categorize. now rewrite lookup_fold. Qed.

Lemma keys_fold (pages : list PageInfo) (cats : Categories) (k : string) :
  In k (map fst (fold_left (fun cs p => add_page (category_of p) p cs) pages cats))
  <-> In k (map fst cats) \/ exists p, In p pages /\ category_of p = k.
Proof.
  revert cats; induction pages as [|p pages IH]; intros cats; simpl.
  - split; [auto | intros [?|(? & [] & _)]; assumption].
  - rewrite IH, keys_add_page. split.
    + intros [[->|Hin]|(q & Hq & <-)]; eauto.
    + intros [Hin|(q & [->|Hq] & <-)]; eauto.
Qed.

Lemma keys_categorize (pages : list PageInfo) (p : PageInfo) :
  In p pages -> In (category_of p) (map fst (categorize pages)).
Proof. intros Hp. unfold categorize. apply keys_fold. eauto. Qed.

(** *** Every page has its bullet in the document *)

Lemma bullet_in_document (today base_url : string) (pages : list PageInfo)
      (page : PageInfo) :
  In page pages ->
  In (bullet_of pages page) (document_lines today base_url pages).
Proof.
  intros Hp. unfold document_lines.
  destruct (site_header base_url pages) as [site_title site_description].
  apply in_or_app. left. apply in_or_app. right.
  apply in_flat_map. exists (category_of page). split.
  - apply sorted_In. now apply keys_categorize.
  - rewrite lookup_categorize. unfold bullet_of, render_category.
    fold (same_category pages page).
    assert (Hin : In page (same_category pages page)).
    { apply filter_In. split; [exact Hp | apply String.eqb_refl]. }
    destruct ((category_of page =? "Main")%string
              && (length (same_category pages page) =? 1)%nat) eqn:E.
    + apply andb_true_iff in E as [_ Hlen]. apply Nat.eqb_eq in Hlen.
      destruct (same_category pages page) as [|q [|q' rest]];
        try discriminate.
      destruct Hin as [->|[]]. now left.
    + cbn [app]. right. right. apply in_or_app. left.
      apply in_map. now apply sorted_In.
Qed.

End GeneratorFacts.

(** ** The bullets of the document *)

Section Bullets.
Import PyStr PyList Urllib Generator Spec Samples.

Lemma shorten_title_cases (t : string) :
  (shorten_title t = t /\ String.length t <= 80)
  \/ (shorten_title t = (take 77 t ++ "...")%string
      /\ 80 < String.length t
      /\ String.length (shorten_title t) = 80).
Proof.
  unfold shorten_title.
  destruct (Nat.ltb_spec 80 (String.length t)) as [Hlt|Hle]; [right | left; auto].
  repeat split; auto.
  rewrite length_append, length_take by lia. reflexivity.
Qed.

Lemma shorten_description_cases (d : string) :
  (shorten_description d = d /\ String.length d <= 200)
  \/ (shorten_description d = (take 200 d ++ "...")%string
      /\ 200 < String.length d
      /\ String.length (shorten_description d) = 203).
Proof.
  unfold shorten_description.
  destruct (Nat.ltb_spec 200 (String.length d)) as [Hlt|Hle]; [right | left; auto].
  repeat split; auto.
  rewrite length_append, length_take by lia. reflexivity.
Qed.

Lemma shorten_title_nonempty (t : string) :
  t <> "" -> shorten_title t <> "".
Proof.
  intros Hne.
  destruct (shorten_title_cases t) as [[-> _]|(_ & _ & Hlen)]; [exact Hne|].
  intros E. rewrite E in Hlen. discriminate.
Qed.

(** Under a heading, a title that is not empty is the link title. *)
Lemma section_link_title_shown (page : PageInfo) :
  shown_title page <> "" ->
  section_link_title page = shorten_title (shown_title page).
Proof.
  intros Hne. unfold section_link_title.
  apply shorten_title_nonempty, truthy_true in Hne. now rewrite Hne.
Qed.

(** Under a heading, a title that is empty once cleaned gives way to the
    last piece of the URL, or to the placeholder. *)
Lemma section_link_title_fallback (page : PageInfo) :
  shown_title page = "" ->
  section_link_title page
  = if truthy (split_last "/" (url page)) then split_last "/" (url page)
    else "Page".
Proof. intros E. unfold section_link_title. now rewrite E. Qed.

Lemma bullet_unfold (link_title : string) (page : PageInfo) :
  bullet link_title page
  = ("- [" ++ link_title ++ "](" ++ url page ++ ")"
     ++ (if truthy (description page)
         then ": " ++ shorten_description (description page) else ""))%string.
Proof.
  unfold bullet. destruct (truthy (description page)).
  - now rewrite !append_assoc.
  - now rewrite append_nil_r.
Qed.

Lemma bullet_of_shown (pages : list PageInfo) (page : PageInfo) :
  shown_title page <> "" ->
  bullet_of pages page = bullet (shorten_title (shown_title page)) page.
Proof.
  intros Hne. unfold bullet_of, main_bullet, section_bullet, main_link_title.
  rewrite section_link_title_shown by exact Hne.
  now destruct (_ && _).
Qed.

(** C2, as the code has it: the bullet of a page that has no title
    shows the page's URL as the link title, cut to 77 characters and
    ["..."] when it has more than 80, for a lone Main page and under a
    heading alike. *)
Theorem empty_title_link_is_url (today base_url : string)
        (pages : list PageInfo) (page : PageInfo) :
  In page pages -> title page = "" -> url page <> "" ->
  main_link_title page = shorten_title (url page)
  /\ section_link_title page = shorten_title (url page)
  /\ In (bullet (shorten_title (url page)) page)
        (document_lines today base_url pages).
Proof.
  intros Hin Ht Hu.
  assert (Hs : shown_title page = url page).
  { unfold shown_title. now rewrite Ht. }
  assert (Hne : shown_title page <> "") by now rewrite Hs.
  split; [|split].
  - unfold main_link_title. now rewrite Hs.
  - rewrite section_link_title_shown by exact Hne. now rewrite Hs.
  - rewrite <- Hs, <- (bullet_of_shown pages) by exact Hne.
    now apply bullet_in_document.
Qed.

Lemma empty_title_link_is_url_witness :
  In "- [https://x.com/blog/post](https://x.com/blog/post)"
     (document_lines "2026-11-03" "https://x.com" [bare_home; blog_post]).
Proof.
  destruct (empty_title_link_is_url "2026-11-03" "https://x.com"
              [bare_home; blog_post] blog_post)
    as (_ & _ & Hdoc).
  - right. left. reflexivity.
  - reflexivity.
  - discriminate.
  - exact Hdoc.
Defined.

(** C2, as the specification states it, fails.  A page without a title
    under [/blog] is listed by its whole URL, not by the last segment
    [post]; a homepage without a title, alone in Main, is listed by its
    URL, not by ["Page"], although its path is empty. *)
Lemma empty_title_not_last_segment :
  (title blog_post = ""
   /\ split_last "/" (url blog_post) = "post"
   /\ section_link_title blog_post = "https://x.com/blog/post"
   /\ document_lines "2026-11-03" "https://x.com" [blog_post]
      = ["# X"; ""; "> Documentation and resources from x.com"; "";
         "## Blog"; "";
         "- [https://x.com/blog/post](https://x.com/blog/post)"; "";
         ""; "---"; "Generated by FreeLLMsTxt on 2026-11-03";
         "Source: https://x.com"])
  /\ (title bare_home = ""
      /\ path (urlparse (url bare_home)) = ""
      /\ main_link_title bare_home = "https://x.com"
      /\ document_lines "2026-11-03" "https://x.com" [bare_home]
         = ["# X"; ""; "> Documentation and resources from x.com"; "";
            "- [https://x.com](https://x.com)";
            ""; "---"; "Generated by FreeLLMsTxt on 2026-11-03";
            "Source: https://x.com"]).
Proof. repeat split. Qed.

(** C6, as the code has it.  The title shown for a page (its cleaned
    title, or its URL when it has none) is the link title of its bullet:
    whole when it has at most 80 characters, else its first 77
    characters and ["..."], 80 characters in all.  The description
    follows: whole when it has at most 200 characters, else its first
    200 characters and ["..."], 203 characters in all. *)
Theorem bullet_truncation (today base_url : string)
        (pages : list PageInfo) (page : PageInfo) :
  In page pages -> shown_title page <> "" ->
  let t := shown_title page in
  let d := description page in
  In ("- [" ++ shorten_title t ++ "](" ++ url page ++ ")"
      ++ (if truthy d then ": " ++ shorten_description d else ""))%string
     (document_lines today base_url pages)
  /\ ((shorten_title t = t /\ String.length t <= 80)
      \/ (shorten_title t = (take 77 t ++ "...")%string
          /\ 80 < String.length t
          /\ String.length (shorten_title t) = 80))
  /\ ((shorten_description d = d /\ String.length d <= 200)
      \/ (shorten_description d = (take 200 d ++ "...")%string
          /\ 200 < String.length d
          /\ String.length (shorten_description d) = 203)).
Proof.
  intros Hin Hne t d. split; [|split].
  - subst t d. rewrite <- bullet_unfold, <- (bullet_of_shown pages) by exact Hne.
    now apply bullet_in_document.
  - apply shorten_title_cases.
  - apply shorten_description_cases.
Qed.

Lemma bullet_truncation_witness :
  In ("- [Acme](https://x.com): " ++ xs 200 ++ "...")%string
     (document_lines "2026-11-03" "https://x.com" [wordy_home]).
Proof.
  destruct (bullet_truncation "2026-11-03" "https://x.com"
              [wordy_home] wordy_home)
    as (Hdoc & _ & _).
  - left. reflexivity.
  - discriminate.
  - exact Hdoc.
Defined.

(** C6, as the specification states it, fails for the description: one
    of 201 characters is emitted with 203, its first 200 and the
    marker. *)
Lemma description_cut_exceeds_200 :
  String.length (description wordy_home) = 201
  /\ main_bullet wordy_home
     = ("- [Acme](https://x.com): " ++ xs 200 ++ "...")%string
  /\ String.length (shorten_description (description wordy_home)) = 203
  /\ ~ String.length (shorten_description (description wordy_home)) <= 200.
Proof.
  repeat split.
  vm_compute. intros Hle. repeat apply le_S_n in Hle. inversion Hle.
Qed.

End Bullets.

(** ** Lists without repetitions *)

Section FirstSeen.
Import PyList Spec.

Lemma mem_In (x : string) (l : list string) : mem x l = true <-> In x l.
Proof.
  unfold mem. rewrite existsb_exists. split.
  - intros (y & Hy & Heq). apply String.eqb_eq in Heq. now subst.
  - intros Hx. exists x. split; [exact Hx | apply String.eqb_refl].
Qed.

Lemma mem_app (x : string) (l m : list string) :
  mem x (l ++ m) = mem x l || mem x m.
Proof. unfold mem. apply existsb_app. Qed.

Lemma filter_filter_comm (A : Type) (p q : A -> bool) (l : list A) :
  filter p (filter q l) = filter q (filter p l).
Proof.
  induction l as [|x l IH]; simpl; [reflexivity|].
  destruct (p x) eqn:Hp, (q x) eqn:Hq; simpl; rewrite ?Hp, ?Hq, IH;
    reflexivity.
Qed.

Lemma filter_and (A : Type) (p q : A -> bool) (l : list A) :
  filter p (filter q l) = filter (fun x => p x && q x) l.
Proof.
  induction l as [|x l IH]; simpl; [reflexivity|].
  destruct (q x) eqn:Hq; simpl; rewrite ?andb_true_r, ?andb_false_r, IH;
    reflexivity.
Qed.

Lemma filter_absorb (p : string -> bool) (x : string) (l : list string) :
  p x = false ->
  filter p (filter (fun y => negb (y =? x)%string) l) = filter p l.
Proof.
  intros Hp. induction l as [|y l IH]; simpl; [reflexivity|].
  destruct (String.eqb_spec y x) as [->|Hne]; simpl.
  - now rewrite Hp.
  - now rewrite IH.
Qed.

Lemma first_seen_filter (p : string -> bool) (l : list string) :
  first_seen (filter p l) = filter p (first_seen l).
Proof.
  induction l as [|x l IH]; simpl; [reflexivity|].
  destruct (p x) eqn:Hp; simpl; rewrite ?Hp, IH.
  - f_equal. apply filter_filter_comm.
  - symmetry. now apply filter_absorb.
Qed.

Lemma first_seen_In (l : list string) (x : string) :
  In x (first_seen l) <-> In x l.
Proof.
  induction l as [|y l IH]; simpl; [tauto|].
  rewrite filter_In, IH. split.
  - intros [->|[Hx _]]; auto.
  - intros [->|Hx]; [now left|].
    destruct (String.eqb_spec x y) as [->|Hne]; [now left | right; auto].
Qed.

Lemma first_seen_NoDup (l : list string) : NoDup (first_seen l).
Proof.
  induction l as [|y l IH]; simpl; constructor.
  - rewrite filter_In. intros [_ Hy]. now rewrite String.eqb_refl in Hy.
  - now apply NoDup_filter.
Qed.

(** Appending the new elements one by one keeps each where it is first
    seen. *)
Lemma fold_append_new (l acc : list string) :
  fold_left append_new l acc
  = acc ++ first_seen (filter (fun y => negb (mem y acc)) l).
Proof.
  revert acc; induction l as [|x l IH]; intros acc; simpl.
  - now rewrite app_nil_r.
  - rewrite IH. unfold append_new.
    destruct (mem x acc) eqn:Hx; simpl; [reflexivity|].
    rewrite <- app_assoc. simpl. do 2 f_equal.
    rewrite <- first_seen_filter, filter_and.
    f_equal. apply filter_ext. intros y.
    rewrite mem_app. simpl. rewrite orb_false_r, negb_orb.
    apply andb_comm.
Qed.

Lemma dict_fromkeys_first_seen (l : list string) :
  dict_fromkeys l = first_seen l.
Proof.
  unfold dict_fromkeys. rewrite fold_append_new. simpl.
  f_equal. clear. induction l; simpl; congruence.
Qed.

Lemma length_slice_to (A : Type) (n : Z) (l : list A) :
  (0 <= n)%Z -> (Z.of_nat (length (slice_to n l)) <= n)%Z.
Proof.
  intros Hn. unfold slice_to.
  destruct (Z.leb_spec 0 n); [|lia].
  rewrite length_firstn. lia.
Qed.

Lemma NoDup_firstn (A : Type) (n : nat) (l : list A) :
  NoDup l -> NoDup (firstn n l).
Proof.
  intros Hl. revert n; induction Hl as [|x l Hx Hl IH]; intros [|n]; simpl;
    try constructor; auto.
  intros Hin. apply Hx. revert Hin.
  clear. revert n. induction l as [|y l IH]; intros [|n]; simpl; try tauto.
  intros [->|Hin]; eauto.
Qed.

Lemma NoDup_slice_to (A : Type) (n : Z) (l : list A) :
  NoDup l -> NoDup (slice_to n l).
Proof. intros Hl. unfold slice_to. destruct (0 <=? n)%Z; now apply NoDup_firstn. Qed.

End FirstSeen.

(** ** The link extractor *)

Section LinkExtractor.
Context {P : HtmlParser} {U : UrlJoin} {C : CrawlerClass}.
Import PyStr PyList Spec.

Lemma extract_links_loop_fold (self : Crawler) (page_url : string)
      (hrefs links : list string) :
  extract_links_loop self page_url hrefs links
  = fold_left append_new (candidates self page_url hrefs) links.
Proof.
  revert links; induction hrefs as [|href hrefs IH]; intros links;
    [reflexivity|].
  unfold candidates in *. cbn [extract_links_loop filter].
  destruct (skipped_href href); cbn [negb]; [apply IH|].
  cbn [map filter].
  destruct (_is_same_domain (base_url self)
              (split_head "#" (urljoin page_url href))) eqn:Hd;
    cbn [andb fold_left]; [|apply IH].
  unfold append_new at 2.
  destruct (mem (split_head "#" (urljoin page_url href)) links);
    cbn [negb]; apply IH.
Qed.

Lemma skipped_href_iff (href : string) :
  skipped_href href = true
  <-> startswith href "#" = true \/ startswith href "javascript:" = true
      \/ startswith href "mailto:" = true \/ startswith href "tel:" = true.
Proof. unfold skipped_href. rewrite !orb_true_iff. tauto. Qed.

(** C7: [_extract_links_from_html] leaves out the [href]s that start
    with [#], [javascript:], [mailto:] or [tel:], joins the others to
    the page's URL, cuts each at its fragment, keeps the links of the
    same domain as the base, and returns each of them once, where it is
    first seen. *)
Theorem extract_links_spec (self : Crawler) (html page_url : string) :
  let hrefs := soup_hrefs (BeautifulSoup html) in
  let result := _extract_links_from_html self html page_url in
  result = first_seen (candidates self page_url hrefs)
  /\ NoDup result
  /\ (forall link,
         In link result
         <-> exists href,
             In href hrefs
             /\ startswith href "#" = false
             /\ startswith href "javascript:" = false
             /\ startswith href "mailto:" = false
             /\ startswith href "tel:" = false
             /\ link = split_head "#" (urljoin page_url href)
             /\ _is_same_domain (base_url self) link = true)
  /\ (forall link, In link result -> contains "#" link = false).
Proof.
  intros hrefs result.
  assert (Hres : result = first_seen (candidates self page_url hrefs)).
  { subst result. unfold _extract_links_from_html.
    rewrite extract_links_loop_fold. apply dict_fromkeys_first_seen. }
  assert (Hin : forall link,
             In link result
             <-> exists href,
                 In href hrefs
                 /\ startswith href "#" = false
                 /\ startswith href "javascript:" = false
                 /\ startswith href "mailto:" = false
                 /\ startswith href "tel:" = false
                 /\ link = split_head "#" (urljoin page_url href)
                 /\ _is_same_domain (base_url self) link = true).
  { intros link. rewrite Hres, first_seen_In. unfold candidates.
    rewrite filter_In, in_map_iff. split.
    - intros [(href & <- & Hhref) Hd]. apply filter_In in Hhref as [Hh Hs].
      apply negb_true_iff in Hs. unfold skipped_href in Hs.
      rewrite !orb_false_iff in Hs. destruct Hs as [[[? ?] ?] ?].
      exists href. repeat split; assumption.
    - intros (href & Hh & H1 & H2 & H3 & H4 & -> & Hd).
      split; [|exact Hd]. exists href. split; [reflexivity|].
      apply filter_In. split; [exact Hh|].
      unfold skipped_href. now rewrite H1, H2, H3, H4. }
  split; [exact Hres|]. split; [rewrite Hres; apply first_seen_NoDup|].
  split; [exact Hin|].
  intros link Hl. apply Hin in Hl as (href & _ & _ & _ & _ & _ & -> & _).
  apply (split_head_char "#").
Qed.

End LinkExtractor.

(** ** Computations *)

Section MonadFacts.
Context {H : HttpClient}.
Import Spec.

Lemma bind_Some (A B : Type) (m : M A) (k : A -> M B) (st : State)
      (r : B * State) :
  bind m k st = Some r
  <-> exists a st1, m st = Some (a, st1) /\ k a st1 = Some r.
Proof.
  unfold bind. destruct (m st) as [[a st1]|]; split.
  - eauto.
  - intros (a' & st' & [= <- <-] & Hk). exact Hk.
  - discriminate.
  - intros (? & ? & [=] & _).
Qed.

Lemma bind_step {A B : Type} {m : M A} (k : A -> M B) {st st1 : State} {a : A} :
  m st = Some (a, st1) -> bind m k st = k a st1.
Proof. intros Hm. unfold bind. now rewrite Hm. Qed.

Lemma log_run (message : string) (st : State) :
  _log message st = Some (tt, logged message st).
Proof. reflexivity. Qed.

(** A fetch returns, with the answer of the world; one more request
    has been sent. *)
Lemma fetch_run (u : string) (st : State) :
  exists st1,
    _fetch u st = Some (fst (http_get u (world st)), st1)
    /\ world st1 = snd (http_get u (world st))
    /\ requests st1 = requests st ++ [u].
Proof.
  unfold _fetch, send, bind.
  destruct (http_get u (world st)) as [[body|] w]; simpl;
    eexists; repeat split; reflexivity.
Qed.

End MonadFacts.

(** ** Probing the well-known sitemap paths *)

Section Probing.
Context {H : HttpClient}.
Import PyStr PyList Spec.

Lemma responses_of_cons (u : string) (urls : list string) (w : World) :
  responses_of (u :: urls) w
  = (fst (http_get u w) :: fst (responses_of urls (snd (http_get u w))),
     snd (responses_of urls (snd (http_get u w)))).
Proof.
  simpl. destruct (http_get u w) as [r w1]. simpl.
  now destruct (responses_of urls w1).
Qed.

Lemma length_responses_of (urls : list string) (w : World) :
  length (fst (responses_of urls w)) = length urls.
Proof.
  revert w; induction urls as [|u urls IH]; intros w; [reflexivity|].
  rewrite responses_of_cons. simpl. now rewrite IH.
Qed.

Lemma prefix_iff (p s : string) :
  prefix p s = true <-> exists post, s = (p ++ post)%string.
Proof.
  split.
  - intros Hp. eexists. now apply prefix_append.
  - intros [post ->]. induction p as [|a p IH]; simpl.
    + apply prefix_empty.
    + destruct (Ascii.ascii_dec a a); [exact IH | congruence].
Qed.

(** [contains] is the substring test. *)
Lemma contains_iff (sub s : string) :
  contains sub s = true
  <-> exists pre post, s = (pre ++ sub ++ post)%string.
Proof.
  induction s as [|a s IH].
  - cbn [contains]. rewrite orb_false_r, prefix_iff. split.
    + intros [post Hs]. now exists "", post.
    + intros (pre & post & Hs). exists post.
      destruct pre; [exact Hs | discriminate].
  - cbn [contains]. rewrite orb_true_iff, prefix_iff, IH. split.
    + intros [[post Hs]|(pre & post & ->)].
      * now exists "", post.
      * now exists (String a pre), post.
    + intros ([|b pre] & post & Hs).
      * left. now exists post.
      * right. injection Hs as <- ->. now exists pre, post.
Qed.

(** A response is taken for a sitemap when it has a body and the body
    holds one of the two tags. *)
Lemma is_sitemap_iff (response : option string) :
  is_sitemap response = true
  <-> exists body,
      response = Some body
      /\ (contains "<urlset" body = true \/ contains "<sitemapindex" body = true).
Proof.
  unfold is_sitemap. rewrite andb_true_iff, orb_true_iff. split.
  - intros [Ht Hc]. destruct response as [body|]; [|discriminate]. eauto.
  - intros (body & -> & Hc). split; [|exact Hc].
    simpl. apply truthy_true. intros ->.
    destruct Hc as [Hc|Hc]; discriminate.
Qed.

Lemma variations_loop_spec (self : Crawler) (patterns : list string) (st : State) :
  let full := fun pattern => (base_url self ++ pattern)%string in
  exists found st',
    variations_loop self patterns st = Some (found, st')
    /\ ((found = []
         /\ Forall (fun r => is_sitemap r = false)
                   (fst (responses_of (map full patterns) (world st)))
         /\ world st' = snd (responses_of (map full patterns) (world st))
         /\ requests st' = requests st ++ map full patterns)
        \/ (exists before pattern after,
               patterns = before ++ pattern :: after
               /\ found = [full pattern]
               /\ Forall (fun r => is_sitemap r = false)
                         (fst (responses_of (map full before) (world st)))
               /\ is_sitemap
                    (fst (http_get (full pattern)
                            (snd (responses_of (map full before) (world st)))))
                  = true
               /\ world st'
                  = snd (http_get (full pattern)
                           (snd (responses_of (map full before) (world st))))
               /\ requests st' = requests st ++ map full before ++ [full pattern])).
Proof.
  intros full. revert st.
  induction patterns as [|pattern patterns IH]; intros st.
  - exists [], st. split; [reflexivity|]. left.
    repeat split; [constructor | now rewrite app_nil_r].
  - cbn [variations_loop]. fold (full pattern).
    destruct (fetch_run (full pattern) st) as (st1 & Hf & Hw & Hr).
    rewrite (bind_step _ Hf).
    destruct (is_sitemap (fst (http_get (full pattern) (world st)))) eqn:Hs.
    + eexists _, _. split; [reflexivity|]. right.
      exists [], pattern, patterns. simpl.
      repeat split; auto.
    + destruct (IH st1) as (found & st' & Hrun & Hcases).
      exists found, st'. split; [exact Hrun|].
      destruct Hcases as [(-> & Hall & Hw' & Hr')
                         |(before & p & after & -> & -> & Hall & Hacc & Hw' & Hr')].
      * left. cbn [map]. rewrite responses_of_cons. cbn [fst snd].
        rewrite Hw in *. repeat split; auto.
        rewrite Hr', Hr, <- app_assoc. reflexivity.
      * right. exists (pattern :: before), p, after.
        cbn [map]. rewrite responses_of_cons. cbn [fst snd].
        rewrite Hw in *. repeat split; auto.
        rewrite Hr', Hr, <- !app_assoc. reflexivity.
Qed.

(** C8: the probing fetches the candidates in order and stops at the
    first whose body is taken for a sitemap.  Either no candidate is
    accepted: the result is empty and every candidate was requested; or
    one is: the result holds its URL alone, the candidates before it
    were requested and rejected, and no request follows its own. *)
Theorem probing_stops_at_first (self : Crawler) (st : State) :
  let full := fun pattern => (base_url self ++ pattern)%string in
  exists found st',
    _try_sitemap_variations self st = Some (found, st')
    /\ ((found = []
         /\ Forall (fun r => is_sitemap r = false)
                   (fst (responses_of (map full SITEMAP_VARIATIONS) (world st)))
         /\ world st' = snd (responses_of (map full SITEMAP_VARIATIONS) (world st))
         /\ requests st' = requests st ++ map full SITEMAP_VARIATIONS)
        \/ (exists before pattern after,
               SITEMAP_VARIATIONS = before ++ pattern :: after
               /\ found = [full pattern]
               /\ Forall (fun r => is_sitemap r = false)
                         (fst (responses_of (map full before) (world st)))
               /\ is_sitemap
                    (fst (http_get (full pattern)
                            (snd (responses_of (map full before) (world st)))))
                  = true
               /\ world st'
                  = snd (http_get (full pattern)
                           (snd (responses_of (map full before) (world st))))
               /\ requests st' = requests st ++ map full before ++ [full pattern])).
Proof.
  intros full. unfold _try_sitemap_variations.
  rewrite (bind_step _ (log_run _ st)).
  apply (variations_loop_spec self SITEMAP_VARIATIONS
           (logged "🔎 Trying common sitemap patterns..." st)).
Qed.

End Probing.

(** ** The extraction of the pages *)

Section Extraction.
Context {H : HttpClient} {P : HtmlParser} {U : UrlJoin} {C : CrawlerClass}.
Import PyStr PyList Spec.

Lemma extracted_cons (self : Crawler) (u : string) (urls : list string)
      (r : option string) (rs : list (option string)) :
  extracted self (u :: urls) (r :: rs)
  = (if truthy_opt r then [_extract_page_info self u (body_of r)] else [])
      ++ extracted self urls rs.
Proof. reflexivity. Qed.

(** A request that fails leaves no record and takes none away. *)
Lemma extracted_failure (self : Crawler) (u : string) (urls : list string)
      (rs : list (option string)) :
  extracted self (u :: urls) (None :: rs) = extracted self urls rs.
Proof. reflexivity. Qed.

Lemma combine_app (A B : Type) (l1 l2 : list A) (r1 r2 : list B) :
  length l1 = length r1 ->
  combine (l1 ++ l2) (r1 ++ r2) = combine l1 r1 ++ combine l2 r2.
Proof.
  revert r1; induction l1 as [|x l1 IH]; intros [|y r1] Hlen;
    try discriminate; [reflexivity|].
  simpl. f_equal. apply IH. now injection Hlen.
Qed.

(** The records follow the order of the URLs. *)
Lemma extracted_urls (self : Crawler) (urls : list string)
      (rs : list (option string)) :
  map url (extracted self urls rs)
  = map fst (filter (fun ur => truthy_opt (snd ur)) (combine urls rs)).
Proof.
  revert rs; induction urls as [|u urls IH]; intros [|r rs]; try reflexivity.
  rewrite extracted_cons, map_app, IH. simpl.
  now destruct (truthy_opt r).
Qed.

Lemma pages_loop_spec (self : Crawler) (total : nat) (urls : list string)
      (i : nat) (pages : list PageInfo) (st : State) :
  exists st',
    pages_loop self total i urls pages st
    = Some (pages ++ extracted self urls (fst (responses_of urls (world st))), st')
    /\ world st' = snd (responses_of urls (world st))
    /\ requests st' = requests st ++ urls.
Proof.
  revert i pages st; induction urls as [|u urls IH]; intros i pages st.
  - exists st. simpl. unfold ret, extracted. simpl.
    now rewrite !app_nil_r.
  - cbn [pages_loop].
    rewrite (bind_step _ (log_run _ st)).
    destruct (fetch_run u (logged ("[" ++ str i ++ "/" ++ str total
                                     ++ "] Fetching: " ++ u) st))
      as (st1 & Hf & Hw & Hr).
    rewrite (bind_step _ Hf). cbn [logged world requests] in *.
    rewrite responses_of_cons. cbn [fst snd]. rewrite extracted_cons.
    rewrite <- Hw.
    destruct (truthy_opt (fst (http_get u (world st)))).
    + destruct (IH (S i)
                   (pages ++ [_extract_page_info self u
                                (body_of (fst (http_get u (world st))))]) st1)
        as (st' & Hrun & Hw' & Hr').
      exists st'. rewrite Hrun, <- app_assoc. repeat split; auto.
      rewrite Hr', Hr, <- app_assoc. reflexivity.
    + destruct (IH (S i) pages st1) as (st' & Hrun & Hw' & Hr').
      exists st'. rewrite Hrun. repeat split; auto.
      rewrite Hr', Hr, <- app_assoc. reflexivity.
Qed.

(** C9: the extraction requests every URL of the batch, in order,
    whatever the earlier requests brought back; a request that fails
    leaves no record; the records of the others come in the order of
    the URLs. *)
Theorem crawl_pages_skips_failures (self : Crawler) (urls : list string)
        (st : State) :
  let responses := fst (responses_of urls (world st)) in
  exists st',
    crawl_pages self urls st = Some (extracted self urls responses, st')
    /\ requests st' = requests st ++ urls
    /\ world st' = snd (responses_of urls (world st))
    /\ length responses = length urls
    /\ map url (extracted self urls responses)
       = map fst (filter (fun ur => truthy_opt (snd ur)) (combine urls responses))
    /\ (forall before u after rs_before rs_after,
           urls = before ++ u :: after ->
           responses = rs_before ++ None :: rs_after ->
           length rs_before = length before ->
           extracted self urls responses
           = extracted self before rs_before ++ extracted self after rs_after).
Proof.
  intros responses. unfold crawl_pages.
  rewrite (bind_step _ (log_run _ st)).
  destruct (pages_loop_spec self (length urls) urls 1 []
              (logged "📝 Extracting page information..." st))
    as (st' & Hrun & Hw & Hr).
  exists st'. split; [exact Hrun|]. split; [exact Hr|]. split; [exact Hw|].
  split; [apply length_responses_of|]. split; [apply extracted_urls|].
  intros before u after rs_before rs_after -> Hrs Hlen. rewrite Hrs.
  unfold extracted. rewrite combine_app by (symmetry; exact Hlen).
  now rewrite flat_map_app.
Qed.

End Extraction.

(** ** The sitemap expander *)

Section Expander.
Context {H : HttpClient} {X : XmlParser}.
Import PyStr PyList Spec.

(** The loop returns as soon as the recursive calls do. *)
Lemma sitemaps_loop_total (recur : list string -> M (list string)) :
  (forall nested st, exists r, recur nested st = Some r) ->
  forall todo all_urls st, exists r, sitemaps_loop recur todo all_urls st = Some r.
Proof.
  intros Hrecur todo.
  induction todo as [|sitemap_url todo IH]; intros all_urls st.
  - eexists. reflexivity.
  - cbn [sitemaps_loop].
    rewrite (bind_step _ (log_run _ st)).
    destruct (fetch_run sitemap_url
                (logged ("📄 Parsing sitemap: " ++ sitemap_url) st))
      as (st1 & Hf & _).
    rewrite (bind_step _ Hf).
    destruct (negb (truthy_opt _)); [apply IH|].
    destruct (_parse_sitemap _) as [urls nested].
    destruct (nonempty nested); [|apply IH].
    rewrite (bind_step _ (log_run _ st1)).
    destruct (Hrecur nested
                (logged ("📁 Found " ++ str (length nested)
                           ++ " nested sitemap(s)") st1))
      as [[below st2] Hbelow].
    rewrite (bind_step _ Hbelow). apply IH.
Qed.

(** The loop depends on the recursive calls through their results only. *)
Lemma sitemaps_loop_mono (recur1 recur2 : list string -> M (list string)) :
  (forall nested st r, recur1 nested st = Some r -> recur2 nested st = Some r) ->
  forall todo all_urls st r,
    sitemaps_loop recur1 todo all_urls st = Some r ->
    sitemaps_loop recur2 todo all_urls st = Some r.
Proof.
  intros Hrecur todo.
  induction todo as [|sitemap_url todo IH]; intros all_urls st r; [auto|].
  cbn [sitemaps_loop].
  rewrite !(bind_step _ (log_run _ st)).
  destruct (fetch_run sitemap_url
              (logged ("📄 Parsing sitemap: " ++ sitemap_url) st))
    as (st1 & Hf & _).
  rewrite !(bind_step _ Hf).
  destruct (negb (truthy_opt _)); [apply IH|].
  destruct (_parse_sitemap _) as [urls nested].
  destruct (nonempty nested); [|apply IH].
  rewrite !(bind_step _ (log_run _ st1)).
  intros Hrun. apply bind_Some in Hrun as (below & st2 & Hbelow & Hrest).
  rewrite (bind_step _ (Hrecur _ _ _ Hbelow)). now apply IH.
Qed.

Lemma sitemaps_loop_ext (recur1 recur2 : list string -> M (list string)) :
  (forall nested st, recur1 nested st = recur2 nested st) ->
  forall todo all_urls st,
    sitemaps_loop recur1 todo all_urls st = sitemaps_loop recur2 todo all_urls st.
Proof.
  intros Hrecur todo.
  induction todo as [|sitemap_url todo IH]; intros all_urls st; [reflexivity|].
  cbn [sitemaps_loop].
  rewrite !(bind_step _ (log_run _ st)).
  destruct (fetch_run sitemap_url
              (logged ("📄 Parsing sitemap: " ++ sitemap_url) st))
    as (st1 & Hf & _).
  rewrite !(bind_step _ Hf).
  destruct (negb (truthy_opt _)); [apply IH|].
  destruct (_parse_sitemap _) as [urls nested].
  destruct (nonempty nested); [|apply IH].
  rewrite !(bind_step _ (log_run _ st1)).
  unfold bind. rewrite Hrecur.
  destruct (recur2 nested _) as [[below st2]|]; [apply IH | reflexivity].
Qed.

(** With fuel to spare, the depth counts the levels down: a call at depth
    [4 - levels] is the expansion with [levels] levels left. *)
Lemma crawl_sitemaps_levels (levels : nat) :
  forall fuel depth sitemap_urls st,
    depth = (4 - Z.of_nat levels)%Z -> (levels < fuel)%nat ->
    _crawl_sitemaps fuel sitemap_urls depth st = expand levels sitemap_urls st.
Proof.
  induction levels as [|levels IH];
    intros [|fuel] depth sitemap_urls st -> Hfuel; try lia;
    cbn [_crawl_sitemaps expand].
  - reflexivity.
  - destruct (Z.gtb_spec (4 - Z.of_nat (S levels)) 3); [lia|].
    apply sitemaps_loop_ext. intros nested st1.
    apply IH; lia.
Qed.

Lemma crawl_sitemaps_total (fuel : nat) :
  forall depth sitemap_urls st,
    (0 < fuel)%nat -> (4 - depth < Z.of_nat fuel)%Z ->
    exists r, _crawl_sitemaps fuel sitemap_urls depth st = Some r.
Proof.
  induction fuel as [|fuel IH]; intros depth sitemap_urls st Hpos Hfuel;
    [lia|].
  cbn [_crawl_sitemaps].
  destruct (Z.gtb_spec depth 3) as [Hdeep|Hshallow].
  - eexists. reflexivity.
  - apply sitemaps_loop_total. intros nested st1.
    apply IH; lia.
Qed.

Lemma crawl_sitemaps_mono (fuel : nat) :
  forall fuel' depth sitemap_urls st r,
    (fuel <= fuel')%nat ->
    _crawl_sitemaps fuel sitemap_urls depth st = Some r ->
    _crawl_sitemaps fuel' sitemap_urls depth st = Some r.
Proof.
  induction fuel as [|fuel IH]; intros [|fuel'] depth sitemap_urls st r Hle;
    try discriminate; try lia.
  cbn [_crawl_sitemaps].
  destruct (depth >? 3)%Z; [auto|].
  apply sitemaps_loop_mono. intros nested st1 r1.
  apply IH. lia.
Qed.

(** When the recursive calls return nothing and change nothing, the loop
    requests its own sitemaps, once each, and returns the pages they
    name. *)
Lemma sitemaps_loop_capped (recur : list string -> M (list string)) :
  (forall nested st, recur nested st = Some ([], st)) ->
  forall todo all_urls st,
  exists st',
    sitemaps_loop recur todo all_urls st
    = Some (all_urls ++ leaves_of (fst (responses_of todo (world st))), st')
    /\ world st' = snd (responses_of todo (world st))
    /\ requests st' = requests st ++ todo.
Proof.
  intros Hrecur todo.
  induction todo as [|sitemap_url todo IH]; intros all_urls st.
  - exists st. simpl. unfold ret, leaves_of. simpl. now rewrite !app_nil_r.
  - cbn [sitemaps_loop].
    rewrite (bind_step _ (log_run _ st)).
    destruct (fetch_run sitemap_url
                (logged ("📄 Parsing sitemap: " ++ sitemap_url) st))
      as (st1 & Hf & Hw & Hr).
    rewrite (bind_step _ Hf). cbn [logged world requests] in *.
    rewrite responses_of_cons. cbn [fst snd]. rewrite <- Hw.
    unfold leaves_of. cbn [flat_map]. fold leaves_of.
    destruct (truthy_opt (fst (http_get sitemap_url (world st)))); cbn [negb].
    + destruct (_parse_sitemap _) as [urls nested]. cbn [fst].
      destruct (nonempty nested).
      * rewrite (bind_step _ (log_run _ st1)).
        rewrite (bind_step _ (Hrecur nested _)).
        destruct (IH ((all_urls ++ urls) ++ [])
                     (logged ("📁 Found " ++ str (length nested)
                                ++ " nested sitemap(s)") st1))
          as (st' & Hrun & Hw' & Hr').
        exists st'. rewrite Hrun. cbn [logged world requests] in *.
        rewrite app_nil_r, <- app_assoc. repeat split; auto.
        rewrite Hr', Hr, <- app_assoc. reflexivity.
      * destruct (IH (all_urls ++ urls) st1) as (st' & Hrun & Hw' & Hr').
        exists st'. rewrite Hrun, <- app_assoc. repeat split; auto.
        rewrite Hr', Hr, <- app_assoc. reflexivity.
    + destruct (IH all_urls st1) as (st' & Hrun & Hw' & Hr').
      exists st'. rewrite Hrun. repeat split; auto.
      rewrite Hr', Hr, <- app_assoc. reflexivity.
Qed.

(** C3: the expansion returns, whatever the sitemaps hold, and more
    fuel than [sitemap_fuel depth] changes nothing.  A call at a depth
    above 3 returns no URL and leaves the state as it found it: it sends
    no request and reads no sitemap.  So a call at depth 3 requests the
    sitemaps it is given and nothing else, and returns the pages they
    name: the sitemaps nested in them are dropped. *)
Theorem crawl_sitemaps_depth_cap (sitemap_urls : list string) (depth : Z)
        (st : State) :
  (exists all_urls st',
      forall fuel,
        (sitemap_fuel depth <= fuel)%nat ->
        _crawl_sitemaps fuel sitemap_urls depth st = Some (all_urls, st'))
  /\ ((3 < depth)%Z ->
      forall fuel, _crawl_sitemaps (S fuel) sitemap_urls depth st = Some ([], st))
  /\ (depth = 3%Z ->
      exists st',
        (forall fuel,
            _crawl_sitemaps (S (S fuel)) sitemap_urls depth st
            = Some (leaves_of (fst (responses_of sitemap_urls (world st))), st'))
        /\ requests st' = requests st ++ sitemap_urls).
Proof.
  split; [|split].
  - destruct (crawl_sitemaps_total (sitemap_fuel depth) depth sitemap_urls st)
      as [[all_urls st'] Hrun]; [unfold sitemap_fuel; lia ..|].
    exists all_urls, st'. intros fuel Hfuel.
    now apply (crawl_sitemaps_mono (sitemap_fuel depth)).
  - intros Hdeep fuel. cbn [_crawl_sitemaps].
    destruct (Z.gtb_spec depth 3); [reflexivity | lia].
  - intros ->.
    destruct (sitemaps_loop_capped (fun _ => ret []) (fun _ _ => eq_refl)
                sitemap_urls [] st) as (st' & Hrun & _ & Hr).
    exists st'. split; [|exact Hr].
    intros fuel. cbn [_crawl_sitemaps Z.gtb Z.compare Pos.compare Pos.compare_cont].
    exact Hrun.
Qed.

End Expander.

(** A sitemap index that names itself is expanded with four requests, one
    for each depth from 0 to 3, and yields no URL. *)
Lemma crawl_sitemaps_depth_cap_witness :
  (exists st',
      (forall fuel,
          (5 <= fuel)%nat ->
          @_crawl_sitemaps Samples.cyclic_web Samples.cyclic_xml fuel
            ["https://x.com/sitemap.xml"] 0 Samples.cyclic_start
          = Some ([], st'))
      /\ requests st' = repeat "https://x.com/sitemap.xml" 4)
  /\ @_crawl_sitemaps Samples.cyclic_web Samples.cyclic_xml 1
       ["https://x.com/sitemap.xml"] 4 Samples.cyclic_start
     = Some ([], Samples.cyclic_start).
Proof.
  split.
  - destruct (@crawl_sitemaps_depth_cap Samples.cyclic_web Samples.cyclic_xml
                ["https://x.com/sitemap.xml"] 0 Samples.cyclic_start)
      as [(all_urls & st' & Hrun) _].
    pose proof (Hrun 5 (le_n 5)) as H5. vm_compute in H5.
    injection H5 as <- <-.
    eexists. split; [exact Hrun | reflexivity].
  - destruct (@crawl_sitemaps_depth_cap Samples.cyclic_web Samples.cyclic_xml
                ["https://x.com/sitemap.xml"] 4 Samples.cyclic_start)
      as [_ Hcap].
    apply Hcap. lia.
Defined.

(** ** The orchestrator *)

Section Orchestrator.
Context {H : HttpClient} {X : XmlParser} {P : HtmlParser} {U : UrlJoin}
        {C : CrawlerClass}.
Import PyStr PyList Spec.

(** *** Every step returns *)

Lemma total_ret (A : Type) (a : A) : Total (ret a).
Proof. intros st. eexists. reflexivity. Qed.

Lemma total_log (message : string) : Total (_log message).
Proof. intros st. eexists. reflexivity. Qed.

Lemma total_fetch (u : string) : Total (_fetch u).
Proof. intros st. destruct (fetch_run u st) as (st1 & Hf & _). eauto. Qed.

Lemma total_bind (A B : Type) (m : M A) (k : A -> M B) :
  Total m -> (forall a, Total (k a)) -> Total (bind m k).
Proof.
  intros Hm Hk st. destruct (Hm st) as [[a st1] Ha].
  rewrite (bind_step _ Ha). apply Hk.
Qed.

Lemma total_variations (self : Crawler) : Total (_try_sitemap_variations self).
Proof.
  apply total_bind; [apply total_log|]. intros _ st.
  destruct (variations_loop_spec self SITEMAP_VARIATIONS st)
    as (found & st' & Hrun & _).
  eauto.
Qed.

Lemma total_crawl_sitemaps (sitemap_urls : list string) :
  Total (_crawl_sitemaps (sitemap_fuel 0) sitemap_urls 0).
Proof. intros st. apply crawl_sitemaps_total; unfold sitemap_fuel; lia. Qed.

Lemma total_crawl_pages (self : Crawler) (urls : list string) :
  Total (crawl_pages self urls).
Proof.
  apply total_bind; [apply total_log|]. intros _ st.
  destruct (pages_loop_spec self (length urls) urls 1 [] st)
    as (st' & Hrun & _).
  eauto.
Qed.

Lemma terminates_total (A : Type) (m : M A) :
  Total m -> Terminates (fun _ => m).
Proof. intros Hm st. exists 0%nat. apply Hm. Qed.

Lemma terminates_bind_l (A B : Type) (m : M A) (k : nat -> A -> M B) :
  Total m -> (forall a, Terminates (fun fuel => k fuel a)) ->
  Terminates (fun fuel => bind m (k fuel)).
Proof.
  intros Hm Hk st. destruct (Hm st) as [[a st1] Ha].
  destruct (Hk a st1) as (fuel & r & Hr).
  exists fuel, r. now rewrite (bind_step _ Ha).
Qed.

Lemma terminates_bind_r (A B : Type) (mf : nat -> M A) (k : A -> M B) :
  Terminates mf -> (forall a, Total (k a)) ->
  Terminates (fun fuel => bind (mf fuel) k).
Proof.
  intros Hm Hk st. destruct (Hm st) as (fuel & [a st1] & Ha).
  destruct (Hk a st1) as [r Hr].
  exists fuel, r. now rewrite (bind_step _ Ha).
Qed.

(** *** The fallback loop ends

    Each turn either shortens the queue or lengthens [discovered], and
    [discovered] cannot pass [max_urls]. *)
Lemma homepage_loop_terminates (self : Crawler) (budget : nat) :
  forall urls_to_visit visited discovered st,
    (max_urls self - Z.of_nat (length discovered) <= Z.of_nat budget)%Z ->
    exists fuel r,
      homepage_loop self fuel urls_to_visit visited discovered st = Some r.
Proof.
  induction budget as [|budget IHb]; intros urls_to_visit;
    induction urls_to_visit as [|current_url queue IHq];
    intros visited discovered st Hbudget;
    try (exists 1%nat; eexists; reflexivity).
  - exists 1%nat. eexists. cbn [homepage_loop].
    destruct (Z.ltb_spec (Z.of_nat (length discovered)) (max_urls self));
      [lia | reflexivity].
  - destruct (Z.ltb_spec (Z.of_nat (length discovered)) (max_urls self))
      as [Hroom|Hfull].
    2:{ exists 1%nat. eexists. cbn [homepage_loop].
        destruct (Z.ltb_spec (Z.of_nat (length discovered)) (max_urls self));
          [lia | reflexivity]. }
    destruct (mem current_url visited) eqn:Hseen.
    { destruct (IHq visited discovered st Hbudget) as (fuel & r & Hr).
      exists (S fuel), r. cbn [homepage_loop].
      destruct (Z.ltb_spec (Z.of_nat (length discovered)) (max_urls self));
        [|lia].
      now rewrite Hseen. }
    destruct (fetch_run current_url
                (logged ("🌐 Crawling: " ++ current_url) st))
      as (st1 & Hf & _).
    destruct (truthy_opt
                (fst (http_get current_url
                        (world (logged ("🌐 Crawling: " ++ current_url) st)))))
      eqn:Hbody.
    + destruct (IHb (enqueue (current_url :: visited) queue
                       (_extract_links_from_html self
                          (body_of (fst (http_get current_url
                             (world (logged ("🌐 Crawling: " ++ current_url) st)))))
                          current_url))
                    (current_url :: visited) (discovered ++ [current_url]) st1)
        as (fuel & r & Hr).
      { rewrite length_app. simpl. lia. }
      exists (S fuel), r. cbn [homepage_loop].
      destruct (Z.ltb_spec (Z.of_nat (length discovered)) (max_urls self));
        [|lia].
      rewrite Hseen, (bind_step _ (log_run _ st)), (bind_step _ Hf), Hbody.
      exact Hr.
    + destruct (IHq (current_url :: visited) discovered st1 Hbudget)
        as (fuel & r & Hr).
      exists (S fuel), r. cbn [homepage_loop].
      destruct (Z.ltb_spec (Z.of_nat (length discovered)) (max_urls self));
        [|lia].
      rewrite Hseen, (bind_step _ (log_run _ st)), (bind_step _ Hf), Hbody.
      exact Hr.
Qed.

Lemma terminates_homepage (self : Crawler) :
  Terminates (_crawl_from_homepage self).
Proof.
  intros st. unfold _crawl_from_homepage.
  destruct (homepage_loop_terminates self (Z.to_nat (max_urls self))
              [base_url self] [] []
              (logged "🔍 No sitemap found. Crawling from homepage..." st))
    as (fuel & r & Hr).
  { simpl. lia. }
  exists fuel, r. now rewrite (bind_step _ (log_run _ st)).
Qed.

(** *** The discovery returns *)

Ltac total :=
  repeat first
    [ apply total_ret | apply total_log | apply total_fetch
    | apply total_variations | apply total_crawl_sitemaps
    | apply total_crawl_pages
    | apply total_bind; [|intros ?]
    | match goal with
      | |- Total (if ?b then _ else _) => destruct b
      | |- Total (let x := _ in _) => cbv zeta
      end ].

Lemma terminates_discover_urls (self : Crawler) :
  Terminates (discover_urls self).
Proof.
  unfold discover_urls.
  apply terminates_bind_l; [total|]; intros _.
  cbv zeta.
  apply terminates_bind_l; [total|]; intros _.
  apply terminates_bind_l; [total|]; intros robots_content.
  apply terminates_bind_l; [total|]; intros sitemap_urls.
  apply terminates_bind_l; [total|]; intros sitemap_urls'.
  apply terminates_bind_l; [total|]; intros all_urls.
  apply terminates_bind_r; [|intros all_urls'; total].
  destruct (negb (nonempty all_urls)).
  - apply terminates_homepage.
  - apply terminates_total. total.
Qed.

Lemma terminates_discover_and_crawl (self : Crawler) :
  Terminates (discover_and_crawl self).
Proof.
  unfold discover_and_crawl.
  apply terminates_bind_r; [apply terminates_discover_urls|].
  intros unique_urls. total.
  intros st. eexists. reflexivity.
Qed.

(** *** What the discovery returns *)

Lemma discover_urls_result (self : Crawler) (fuel : nat) (st st' : State)
      (unique_urls : list string) :
  discover_urls self fuel st = Some (unique_urls, st') ->
  exists all_urls,
    unique_urls = slice_to (max_urls self) (first_seen all_urls).
Proof.
  unfold discover_urls. intros Hrun.
  repeat (apply bind_Some in Hrun; destruct Hrun as (? & ? & _ & Hrun);
          cbv beta zeta in Hrun).
  injection Hrun as <- _. eexists. now rewrite dict_fromkeys_first_seen.
Qed.

Lemma length_extracted (self : Crawler) (urls : list string)
      (rs : list (option string)) :
  (length (extracted self urls rs) <= length urls)%nat.
Proof.
  revert rs; induction urls as [|u urls IH]; intros [|r rs]; simpl;
    try lia.
  rewrite extracted_cons, length_app. specialize (IH rs).
  destruct (truthy_opt r); simpl; lia.
Qed.

Lemma NoDup_extracted (self : Crawler) (urls : list string)
      (rs : list (option string)) :
  NoDup urls -> NoDup (map url (extracted self urls rs)).
Proof.
  intros Hurls. revert rs.
  induction Hurls as [|u urls Hu Hurls IH]; intros [|r rs];
    try constructor.
  rewrite extracted_cons, map_app.
  destruct (truthy_opt r); simpl; [|apply IH].
  constructor; [|apply IH].
  rewrite extracted_urls, in_map_iff.
  intros ([u' r'] & Heq & Hin). simpl in Heq. subst u'.
  apply filter_In in Hin as [Hin _].
  apply in_combine_l in Hin. contradiction.
Qed.

Lemma crawl_pages_result (self : Crawler) (urls : list string)
      (st st' : State) (pages : list PageInfo) :
  crawl_pages self urls st = Some (pages, st') ->
  pages = extracted self urls
            (fst (responses_of urls (world st))).
Proof.
  unfold crawl_pages. rewrite (bind_step _ (log_run _ st)).
  destruct (pages_loop_spec self (length urls) urls 1 []
              (logged "📝 Extracting page information..." st))
    as (st1 & Hrun & _).
  rewrite Hrun. now intros [= <- _].
Qed.

(** C4, as the code has it: for a [max_urls] that is not negative, the
    discovery returns, with at most [max_urls] page records and no URL
    twice; the records are those of a list of URLs without repetitions,
    each where it is first seen, cut to its first [max_urls]
    elements. *)
Theorem discover_bounded_unique (self : Crawler) (st : State) :
  (0 <= max_urls self)%Z ->
  (exists fuel result, discover_and_crawl self fuel st = Some result)
  /\ (forall fuel pages log st',
         discover_and_crawl self fuel st = Some (pages, log, st') ->
         (Z.of_nat (length pages) <= max_urls self)%Z
         /\ NoDup (map url pages)
         /\ exists all_urls responses,
             pages = extracted self
                       (firstn (Z.to_nat (max_urls self)) (first_seen all_urls))
                       responses).
Proof.
  intros Hmax. split; [apply terminates_discover_and_crawl|].
  intros fuel pages log st'. unfold discover_and_crawl. intros Hrun.
  apply bind_Some in Hrun as (unique_urls & st1 & Hurls & Hrun).
  apply bind_Some in Hrun as (pages' & st2 & Hpages & Hrun).
  rewrite (bind_step _ (log_run _ st2)) in Hrun.
  injection Hrun as <- _ _.
  apply discover_urls_result in Hurls as [all_urls ->].
  apply crawl_pages_result in Hpages as ->.
  split; [|split].
  - pose proof (length_extracted self
                  (slice_to (max_urls self) (first_seen all_urls))
                  (fst (responses_of
                          (slice_to (max_urls self) (first_seen all_urls))
                          (world st1)))) as Hlen.
    pose proof (length_slice_to _ (max_urls self) (first_seen all_urls) Hmax).
    lia.
  - apply NoDup_extracted, NoDup_slice_to, first_seen_NoDup.
  - exists all_urls. eexists. unfold slice_to.
    destruct (Z.leb_spec 0 (max_urls self)); [reflexivity | lia].
Qed.

(** The records never share a URL, whatever [max_urls] is. *)
Lemma discover_unique (self : Crawler) (fuel : nat) (st st' : State)
      (pages : list PageInfo) (log : list string) :
  discover_and_crawl self fuel st = Some (pages, log, st') ->
  NoDup (map url pages).
Proof.
  unfold discover_and_crawl. intros Hrun.
  apply bind_Some in Hrun as (unique_urls & st1 & Hurls & Hrun).
  apply bind_Some in Hrun as (pages' & st2 & Hpages & Hrun).
  rewrite (bind_step _ (log_run _ st2)) in Hrun.
  injection Hrun as <- _ _.
  apply discover_urls_result in Hurls as [all_urls ->].
  apply crawl_pages_result in Hpages as ->.
  apply NoDup_extracted, NoDup_slice_to, first_seen_NoDup.
Qed.

End Orchestrator.

Section OrchestratorSamples.
Import Samples Spec.

Lemma discover_bounded_unique_witness :
  exists pages log st',
    mapped_crawl 1 = Some (pages, log, st')
    /\ (Z.of_nat (length pages) <= 1)%Z
    /\ NoDup (map url pages).
Proof.
  destruct (@discover_bounded_unique mapped_web mapped_xml mapped_html
              absolute_join app_py (@__init__ app_py "x.com" 1) mapped_start)
    as [_ Hresult]; [simpl; lia|].
  destruct (mapped_crawl 1) as [[[pages log] st']|] eqn:Hrun; [|discriminate].
  exists pages, log, st'. split; [reflexivity|].
  destruct (Hresult 0%nat pages log st' Hrun) as (Hlen & Hnodup & _).
  split; assumption.
Defined.

(** C4, as the specification states it, fails for a negative
    [max_urls]: [l[:-1]] is [l] without its last element, so that of two
    URLs found in a sitemap one page record is returned, more than
    [max_urls]. *)
Lemma discover_negative_max :
  exists log st',
    mapped_crawl (-1)
    = Some ([{| url := "https://x.com/a"; title := "A"; description := "";
                content_preview := ""; links := [] |}], log, st')
    /\ ~ (Z.of_nat 1 <= -1)%Z.
Proof.
  eexists _, _. split; [vm_compute; reflexivity | lia].
Qed.

(** The probing stops at the second candidate: the sitemap at the seventh
    is never requested. *)
Example probing_second_candidate :
  exists st',
    @_try_sitemap_variations indexed_web (@__init__ app_py "x.com" 20)
                             indexed_start
    = Some (["https://x.com/sitemap_index.xml"], st')
    /\ requests st'
       = ["https://x.com/sitemap.xml"; "https://x.com/sitemap_index.xml"].
Proof. eexists. split; vm_compute; reflexivity. Qed.

(** The links of a page: the fragment, the [mailto:] and the foreign
    host are left out, the link that differs by its fragment is kept
    once. *)
Example links_of_home :
  @_extract_links_from_html linked_html absolute_join app_py
                            (@__init__ app_py "x.com" 20) home_html "https://x.com"
  = ["https://x.com/a"; "https://x.com/b"].
Proof. vm_compute. reflexivity. Qed.

(** The fallback on a site without a sitemap: the homepage and the page
    it links to are discovered, the missing page is requested and
    skipped. *)
Example discover_by_links :
  exists log st',
    @discover_and_crawl linked_web (table_xml []) linked_html absolute_join
                        app_py (@__init__ app_py "x.com/" 5) 4 linked_start
    = Some ([{| url := "https://x.com"; title := "home"; description := "";
                content_preview := "";
                links := ["https://x.com/a"; "https://x.com/b"] |};
             {| url := "https://x.com/a"; title := "A"; description := "";
                content_preview := ""; links := ["https://x.com"] |}],
            log, st').
Proof. eexists _, _. vm_compute. reflexivity. Qed.

End OrchestratorSamples.

(** ** The examples of the specification *)

Section SpecificationExamples.
Import PyStr Generator Samples.

Example robots_two_sitemaps :
  _find_sitemaps_in_robots
    ("Sitemap: https://x.com/s.xml" ++ newline ++ "Sitemap: https://x.com/s2.xml")
  = ["https://x.com/s.xml"; "https://x.com/s2.xml"].
Proof. reflexivity. Qed.

Example render_homepage :
  firstn 3 (document_lines "2026-11-03" "https://x.com"
              [page "https://x.com" "Acme | Home" "Widgets."])
  = ["# Acme"; ""; "> Widgets."].
Proof. reflexivity. Qed.

Example render_blog :
  document_lines "2026-11-03" "https://x.com"
    [page "https://x.com/blog/b" "B" ""; page "https://x.com/blog/a" "A" ""]
  = ["# X"; ""; "> Documentation and resources from x.com"; "";
     "## Blog"; ""; "- [A](https://x.com/blog/a)"; "- [B](https://x.com/blog/b)";
     ""; ""; "---"; "Generated by FreeLLMsTxt on 2026-11-03";
     "Source: https://x.com"].
Proof. reflexivity. Qed.

End SpecificationExamples.

(* ================================================================== *)
(** * Further properties of the code *)

(** ** The frontier of the fallback crawl *)

Section Frontier.
Context {H : HttpClient} {P : HtmlParser} {U : UrlJoin} {C : CrawlerClass}.
Import PyStr PyList Spec.

Lemma enqueue_In (visited queue found : list string) (u : string) :
  In u (enqueue visited queue found) ->
  In u queue \/ (In u found /\ ~ In u visited).
Proof.
  unfold enqueue. revert queue.
  induction found as [|link found IH]; intros queue; simpl; [auto|].
  intros Hu. apply IH in Hu as [Hu|[Hu Hv]]; [|auto].
  destruct (mem link visited) eqn:Hv; simpl in Hu; [auto|].
  destruct (mem link queue); simpl in Hu; [auto|].
  apply in_app_or in Hu as [Hu|[<-|[]]]; [auto|].
  right. split; [now left|].
  intros Hin. apply mem_In in Hin. congruence.
Qed.

Lemma enqueue_NoDup (visited queue found : list string) :
  NoDup queue -> NoDup (enqueue visited queue found).
Proof.
  unfold enqueue. revert queue.
  induction found as [|link found IH]; intros queue Hq; simpl; [exact Hq|].
  apply IH.
  destruct (mem link visited); simpl; [exact Hq|].
  destruct (mem link queue) eqn:Hm; simpl; [exact Hq|].
  apply NoDup_app; [exact Hq | repeat constructor; auto |].
  intros x Hx [<-|[]]. apply mem_In in Hx. congruence.
Qed.

(** A link taken from a page is of the same domain as the base. *)
Lemma extracted_link_same_domain (self : Crawler) (html page_url link : string) :
  In link (_extract_links_from_html self html page_url) ->
  _is_same_domain (base_url self) link = true.
Proof.
  unfold _extract_links_from_html.
  rewrite extract_links_loop_fold.
  change (fold_left append_new ?l []) with (dict_fromkeys l).
  rewrite dict_fromkeys_first_seen, first_seen_In.
  unfold candidates. rewrite filter_In. now intros [_ Hd].
Qed.

(** The loop keeps the queue free of repetitions and of visited URLs, so
    that no URL is requested twice. *)
Lemma homepage_loop_invariant (self : Crawler) (fuel : nat) :
  forall urls_to_visit visited discovered st result st',
    NoDup urls_to_visit ->
    (forall u, In u urls_to_visit -> ~ In u visited) ->
    Forall (fun u => u = base_url self
                     \/ _is_same_domain (base_url self) u = true) urls_to_visit ->
    homepage_loop self fuel urls_to_visit visited discovered st
    = Some (result, st') ->
    exists found new,
      result = discovered ++ found
      /\ requests st' = requests st ++ new
      /\ NoDup new
      /\ (forall u, In u new -> ~ In u visited)
      /\ incl found new
      /\ NoDup found
      /\ Forall (fun u => u = base_url self
                          \/ _is_same_domain (base_url self) u = true) new
      /\ (Z.of_nat (length result)
          <= Z.max (Z.of_nat (length discovered)) (max_urls self))%Z.
Proof.
  induction fuel as [|fuel IH];
    intros urls_to_visit visited discovered st result st' Hnd Hfresh Hok Hrun;
    [discriminate|].
  cbn [homepage_loop] in Hrun.
  destruct urls_to_visit as [|current_url queue].
  { injection Hrun as <- <-. exists [], [].
    rewrite !app_nil_r.
    repeat split; auto using NoDup_nil, incl_nil_l, Forall_nil; try lia;
      try (intros u []). }
  destruct (Z.ltb_spec (Z.of_nat (length discovered)) (max_urls self))
    as [Hroom|Hfull].
  2:{ injection Hrun as <- <-. exists [], [].
      rewrite !app_nil_r.
    repeat split; auto using NoDup_nil, incl_nil_l, Forall_nil; try lia;
      try (intros u []). }
  inversion Hnd as [|? ? Hcur Hnd']; subst.
  inversion Hok as [|? ? Hcur_ok Hok']; subst.
  assert (Hfresh' : forall u, In u queue -> ~ In u visited)
    by (intros u Hu; apply Hfresh; now right).
  destruct (mem current_url visited) eqn:Hseen.
  { apply mem_In in Hseen. exfalso. apply (Hfresh current_url); [now left | exact Hseen]. }
  rewrite (bind_step _ (log_run _ st)) in Hrun.
  destruct (fetch_run current_url (logged ("🌐 Crawling: " ++ current_url) st))
    as (st1 & Hf & _ & Hr).
  rewrite (bind_step _ Hf) in Hrun. cbn [logged requests] in Hr.
  assert (Hnot : ~ In current_url visited).
  { intros Hin. apply mem_In in Hin. congruence. }
  set (html := fst (http_get current_url
                      (world (logged ("🌐 Crawling: " ++ current_url) st)))) in *.
  destruct (truthy_opt html); cbn [negb] in Hrun.
  - (* the page came back: it is discovered and its links are queued *)
    apply IH in Hrun
      as (found & new & -> & Hreq & Hnew & Hnv & Hincl & Hfound & Hnok & Hlen).
    + exists (current_url :: found), (current_url :: new).
      rewrite <- app_assoc in *. cbn [app] in *.
      split; [reflexivity|]. split; [now rewrite Hreq, Hr, <- app_assoc|].
      split.
      { constructor; [|exact Hnew]. intros Hin. apply (Hnv _ Hin). now left. }
      split.
      { intros u [<-|Hu]; [exact Hnot|]. intros Hv. apply (Hnv u Hu). now right. }
      split.
      { intros u [<-|Hu]; [now left | right; now apply Hincl]. }
      split.
      { constructor; [|exact Hfound]. intros Hin.
        apply (Hnv _ (Hincl _ Hin)). now left. }
      split; [now constructor|].
      rewrite !length_app in *. cbn [length] in *. lia.
    + now apply enqueue_NoDup.
    + intros u Hu [<-|Hv].
      * apply enqueue_In in Hu as [Hu|[_ Hu]]; [contradiction|].
        apply Hu. now left.
      * apply enqueue_In in Hu as [Hu|[_ Hu]].
        -- exact (Hfresh' u Hu Hv).
        -- apply Hu. now right.
    + apply Forall_forall. intros u Hu.
      apply enqueue_In in Hu as [Hu|[Hu _]].
      * rewrite Forall_forall in Hok'. now apply Hok'.
      * right. now apply extracted_link_same_domain in Hu.
  - (* the request failed: the URL is consumed *)
    apply IH in Hrun
      as (found & new & -> & Hreq & Hnew & Hnv & Hincl & Hfound & Hnok & Hlen);
      [|exact Hnd'| |exact Hok'].
    + exists found, (current_url :: new).
      split; [reflexivity|]. split; [now rewrite Hreq, Hr, <- app_assoc|].
      split.
      { constructor; [|exact Hnew]. intros Hin. apply (Hnv _ Hin). now left. }
      split.
      { intros u [<-|Hu]; [exact Hnot|]. intros Hv. apply (Hnv u Hu). now right. }
      split; [now apply incl_tl|].
      split; [exact Hfound|].
      split; [now constructor | exact Hlen].
    + intros u Hu [<-|Hv]; [contradiction | exact (Hfresh' u Hu Hv)].
Qed.

Lemma homepage_loop_mono (self : Crawler) (fuel : nat) :
  forall fuel' urls_to_visit visited discovered st r,
    (fuel <= fuel')%nat ->
    homepage_loop self fuel urls_to_visit visited discovered st = Some r ->
    homepage_loop self fuel' urls_to_visit visited discovered st = Some r.
Proof.
  induction fuel as [|fuel IH];
    intros [|fuel'] urls_to_visit visited discovered st r Hle;
    try discriminate; try lia.
  cbn [homepage_loop].
  destruct urls_to_visit as [|current_url queue]; [auto|].
  destruct (_ <? _)%Z; [|auto].
  destruct (mem current_url visited); [apply IH; lia|].
  rewrite !(bind_step _ (log_run _ st)).
  destruct (fetch_run current_url (logged ("🌐 Crawling: " ++ current_url) st))
    as (st1 & Hf & _).
  rewrite !(bind_step _ Hf).
  destruct (negb _); apply IH; lia.
Qed.

(** X1: whatever the site holds, the fallback crawl requests no URL
    twice; the URLs it returns are among those it requested, have no
    repetition, number at most [max_urls] (none when [max_urls] is not
    positive), and each is the base URL or of the same domain. *)
Theorem fallback_crawl_invariants (self : Crawler) (fuel : nat)
        (st st' : State) (discovered : list string) :
  _crawl_from_homepage self fuel st = Some (discovered, st') ->
  NoDup discovered
  /\ (Z.of_nat (length discovered) <= Z.max 0 (max_urls self))%Z
  /\ Forall (fun u => u = base_url self
                      \/ _is_same_domain (base_url self) u = true) discovered
  /\ exists new,
      requests st' = requests st ++ new
      /\ NoDup new
      /\ incl discovered new.
Proof.
  unfold _crawl_from_homepage. rewrite (bind_step _ (log_run _ st)).
  intros Hrun.
  apply homepage_loop_invariant in Hrun
    as (found & new & -> & Hreq & Hnew & _ & Hincl & Hfound & Hok & Hlen).
  - cbn [app length] in *. repeat split; auto.
    + rewrite Forall_forall in *. intros u Hu. apply Hok, Hincl, Hu.
    + exists new. auto.
  - repeat constructor. intros [].
  - intros u _ [].
  - repeat constructor.
Qed.

(** X2: the fallback crawl returns, however far the links of the site
    lead, and fuel beyond what it needs changes nothing; when [max_urls]
    is not positive it returns no URL and sends no request. *)
Theorem fallback_crawl_terminates (self : Crawler) (st : State) :
  (exists fuel result,
      forall fuel', (fuel <= fuel')%nat ->
                    _crawl_from_homepage self fuel' st = Some result)
  /\ ((max_urls self <= 0)%Z ->
      exists st',
        _crawl_from_homepage self 1 st = Some ([], st')
        /\ requests st' = requests st /\ world st' = world st).
Proof.
  split.
  - destruct (terminates_homepage self st) as (fuel & result & Hrun).
    exists fuel, result. intros fuel' Hle.
    unfold _crawl_from_homepage in *.
    rewrite (bind_step _ (log_run _ st)) in *.
    now apply (homepage_loop_mono self fuel).
  - intros Hmax. eexists. unfold _crawl_from_homepage.
    rewrite (bind_step _ (log_run _ st)). cbn [homepage_loop length].
    destruct (Z.ltb_spec (Z.of_nat 0) (max_urls self)); [lia|].
    repeat split.
Qed.

End Frontier.

Lemma fallback_crawl_invariants_witness :
  exists discovered st',
    @_crawl_from_homepage Samples.linked_web Samples.linked_html
      Samples.absolute_join app_py (@__init__ app_py "x.com/" 5) 4
      Samples.linked_start
    = Some (discovered, st')
    /\ NoDup discovered.
Proof.
  destruct (@_crawl_from_homepage Samples.linked_web Samples.linked_html
              Samples.absolute_join app_py (@__init__ app_py "x.com/" 5) 4
              Samples.linked_start)
    as [[discovered st']|] eqn:Hrun; [|discriminate].
  exists discovered, st'. split; [reflexivity|].
  exact (proj1 (@fallback_crawl_invariants Samples.linked_web Samples.linked_html
                  Samples.absolute_join app_py _ _ _ _ _ Hrun)).
Defined.

(** ** The sitemap directives of [robots.txt] *)

Section Robots.
Import PyStr PyList Spec.

Lemma rstrip_ws_cons (a : ascii) (s : string) :
  rstrip_ws (String a s) =
  match rstrip_ws s with
  | "" => if isspace a then "" else String a ""
  | r => String a r
  end.
Proof. reflexivity. Qed.


Lemma rstrip_ws_head (a : ascii) (s : string) :
  isspace a = false -> exists r, rstrip_ws (String a s) = String a r.
Proof.
  intros Ha. rewrite rstrip_ws_cons.
  destruct (rstrip_ws s); rewrite ?Ha; eauto.
Qed.

Lemma lstrip_ws_shape (s : string) :
  lstrip_ws s = ""
  \/ exists a r, lstrip_ws s = String a r /\ isspace a = false.
Proof.
  induction s as [|a s IH]; [now left|].
  cbn [lstrip_ws]. destruct (isspace a) eqn:Ea; [exact IH | eauto].
Qed.

(** What [strip] returns is empty or starts with a character that is
    not white space. *)
Lemma strip_shape (s : string) :
  strip s = "" \/ exists a r, strip s = String a r /\ isspace a = false.
Proof.
  unfold strip.
  destruct (lstrip_ws_shape s) as [->|(a & r & -> & Ha)]; [now left|].
  right. destruct (rstrip_ws_head a r Ha) as [r' ->]. eauto.
Qed.


Lemma strip_fixed (u : string) :
  u <> "" -> strip u = u ->
  exists a r, u = String a r /\ isspace a = false /\ rstrip_ws u = u.
Proof.
  intros Hne Hu.
  destruct (strip_shape u) as [E|(a & r & E & Ha)]; [congruence|].
  rewrite Hu in E. exists a, r. repeat split; auto.
  rewrite <- Hu at 2. unfold strip. rewrite E. cbn [lstrip_ws].
  now rewrite Ha.
Qed.

Lemma rstrip_ws_app_fixed (p s : string) :
  s <> "" -> rstrip_ws s = s -> rstrip_ws (p ++ s) = (p ++ s)%string.
Proof.
  intros Hne Hs. induction p as [|a p IH]; [exact Hs|].
  cbn [String.append]. rewrite rstrip_ws_cons, IH.
  destruct (p ++ s)%string eqn:E; [|reflexivity].
  destruct p; simpl in E; [contradiction | discriminate].
Qed.


Lemma splitlines_from_line (l rest : string) :
  no_linebreak l = true ->
  splitlines_from false (l ++ Generator.newline ++ rest)
  = (l, splitlines rest, true).
Proof.
  intros Hl. induction l as [|a l IH].
  - unfold Generator.newline. cbn [String.append splitlines_from andb].
    change (islinebreak (ascii_of_nat 10)) with true.
    change (nat_of_ascii (ascii_of_nat 10) =? 13)%nat with false.
    unfold splitlines.
    now destruct (splitlines_from false rest) as [[p ps] more].
  - cbn [no_linebreak] in Hl. apply andb_true_iff in Hl as [Ha Hl].
    apply negb_true_iff in Ha.
    cbn [String.append splitlines_from andb]. rewrite Ha, (IH Hl).
    reflexivity.
Qed.

Lemma splitlines_line (l rest : string) :
  no_linebreak l = true ->
  splitlines (l ++ Generator.newline ++ rest) = l :: splitlines rest.
Proof.
  intros Hl. unfold splitlines at 1. now rewrite splitlines_from_line.
Qed.

(** X4: reading the sitemap directives back from a [robots.txt] written
    with one [Sitemap:] line for each URL gives the URLs, in order. *)
Theorem robots_round_trip (urls : list string) :
  Forall clean_url urls ->
  _find_sitemaps_in_robots (robots_of urls) = urls.
Proof.
  induction 1 as [|u urls (Hne & Hstrip & Hline) _ IH]; [reflexivity|].
  destruct (strip_fixed u Hne Hstrip) as (a & r & Hu & Ha & Hr).
  unfold _find_sitemaps_in_robots in *. cbn [robots_of].
  change ("Sitemap: " ++ u ++ Generator.newline ++ robots_of urls)%string
    with (("Sitemap: " ++ u) ++ Generator.newline ++ robots_of urls)%string.
  rewrite splitlines_line by exact Hline.
  cbn [flat_map]. rewrite IH.
  assert (Hs : strip ("Sitemap: " ++ u) = ("Sitemap: " ++ u)%string).
  { unfold strip. cbn [String.append lstrip_ws].
    change (isspace "S") with false. cbv iota.
    apply (rstrip_ws_app_fixed "Sitemap: " u Hne Hr). }
  rewrite Hs.
  change (startswith (lower ("Sitemap: " ++ u)) "sitemap:") with true.
  cbv iota.
  change (snd (split_once_from ":" ("Sitemap: " ++ u)))
    with (Some (String " " u)).
  cbv iota.
  assert (Hrest : strip (String " " u) = u).
  { unfold strip. cbn [lstrip_ws]. change (isspace " ") with true.
    cbv iota. exact Hstrip. }
  rewrite Hrest. apply truthy_true in Hne. now rewrite Hne.
Qed.

End Robots.

Lemma robots_round_trip_witness :
  _find_sitemaps_in_robots
    (Spec.robots_of ["https://x.com/s.xml"; "https://x.com/s2.xml"])
  = ["https://x.com/s.xml"; "https://x.com/s2.xml"].
Proof.
  apply robots_round_trip.
  repeat constructor; discriminate.
Defined.

(** ** Sitemap documents *)

Section SitemapDocuments.
Context {X : XmlParser}.
Import PyStr PyList Spec.

Lemma locs_of_entries (kind root_tag : string) (root_text : option string)
      (entries : list (string * string)) :
  ("loc" =? kind)%string = false ->
  flat_map loc_of (findall kind (Elem root_tag root_text (map entry entries)))
  = locations kind entries.
Proof.
  intros Hkind. unfold findall, locations. cbn [descendants].
  induction entries as [|[k l] entries IH]; [reflexivity|].
  unfold entry in *.
  cbn [map flat_map descendants fst snd app filter tag].
  rewrite Hkind.
  destruct (k =? kind)%string; cbn [flat_map map filter fst snd]; [|exact IH].
  unfold loc_of at 1. cbn [children find tag text].
  change ("loc" =? "loc")%string with true. cbn [text].
  rewrite IH.
  destruct (truthy l); reflexivity.
Qed.

(** X5: for a document that parses to a root with [<url>] and
    [<sitemap>] entries, whatever the tag of the root, [_parse_sitemap]
    returns the locations of the first as page URLs and those of the second
    as nested sitemaps, each stripped and in the order of the document;
    an entry with an empty location is left out. *)
Theorem parse_sitemap_entries (xml_content root_tag : string)
        (root_text : option string) (entries : list (string * string)) :
  ET_fromstring (re_sub_xmlns xml_content)
  = Some (Elem root_tag root_text (map entry entries)) ->
  _parse_sitemap xml_content
  = (locations "url" entries, locations "sitemap" entries).
Proof.
  intros Hparse. unfold _parse_sitemap. rewrite Hparse.
  now rewrite !locs_of_entries.
Qed.

End SitemapDocuments.

Lemma parse_sitemap_entries_witness :
  @_parse_sitemap Samples.mapped_xml Samples.sitemap_of_two
  = (["https://x.com/a"; "https://x.com/b"], []).
Proof.
  exact (@parse_sitemap_entries Samples.mapped_xml Samples.sitemap_of_two
           "urlset" None
           [("url", "https://x.com/a"); ("url", "https://x.com/b")] eq_refl).
Defined.

(** ** The order of the expansion *)

Section ExpansionOrder.
Context {H : HttpClient} {X : XmlParser}.
Import PyStr PyList Spec.

(** The URLs gathered so far stay in front of those the loop adds. *)
Lemma sitemaps_loop_acc (recur : list string -> M (list string))
      (todo : list string) :
  forall all_urls st,
    sitemaps_loop recur todo all_urls st
    = match sitemaps_loop recur todo [] st with
      | Some (r, st') => Some (all_urls ++ r, st')
      | None => None
      end.
Proof.
  induction todo as [|sitemap_url todo IH]; intros all_urls st.
  - cbn. unfold ret. now rewrite app_nil_r.
  - cbn [sitemaps_loop].
    rewrite !(bind_step _ (log_run _ st)).
    destruct (fetch_run sitemap_url
                (logged ("📄 Parsing sitemap: " ++ sitemap_url) st))
      as (st1 & Hf & _).
    rewrite !(bind_step _ Hf).
    destruct (negb (truthy_opt _)); [apply IH|].
    destruct (_parse_sitemap _) as [urls nested].
    destruct (nonempty nested).
    + rewrite !(bind_step _ (log_run _ st1)).
      unfold bind.
      destruct (recur nested _) as [[below st2]|]; [|reflexivity].
      rewrite (IH ((all_urls ++ urls) ++ below)), (IH (([] ++ urls) ++ below)).
      destruct (sitemaps_loop recur todo [] st2) as [[r st3]|]; [|reflexivity].
      cbn [app]. now rewrite !app_assoc.
    + rewrite (IH (all_urls ++ urls)), (IH ([] ++ urls)).
      destruct (sitemaps_loop recur todo [] st1) as [[r st3]|]; [|reflexivity].
      cbn [app]. now rewrite !app_assoc.
Qed.

Lemma sitemaps_loop_app (recur : list string -> M (list string))
      (todo1 todo2 : list string) :
  forall all_urls st,
    sitemaps_loop recur (todo1 ++ todo2) all_urls st
    = match sitemaps_loop recur todo1 all_urls st with
      | Some (gathered, st') => sitemaps_loop recur todo2 gathered st'
      | None => None
      end.
Proof.
  induction todo1 as [|sitemap_url todo1 IH]; intros all_urls st;
    [reflexivity|].
  cbn [app sitemaps_loop].
  rewrite !(bind_step _ (log_run _ st)).
  destruct (fetch_run sitemap_url
              (logged ("📄 Parsing sitemap: " ++ sitemap_url) st))
    as (st1 & Hf & _).
  rewrite !(bind_step _ Hf).
  destruct (negb (truthy_opt _)); [apply IH|].
  destruct (_parse_sitemap _) as [urls nested].
  destruct (nonempty nested); [|apply IH].
  rewrite !(bind_step _ (log_run _ st1)).
  unfold bind.
  destruct (recur nested _) as [[below st2]|]; [apply IH | reflexivity].
Qed.

(** X6: expanding a list of sitemaps is expanding its first part, then
    its second part from the state the first left, and putting the URLs
    of the second after those of the first. *)
Theorem crawl_sitemaps_app (fuel : nat) (sitemaps1 sitemaps2 : list string)
        (depth : Z) (st : State) :
  _crawl_sitemaps fuel (sitemaps1 ++ sitemaps2) depth st
  = (first <- _crawl_sitemaps fuel sitemaps1 depth ;;
     second <- _crawl_sitemaps fuel sitemaps2 depth ;;
     ret (first ++ second)) st.
Proof.
  destruct fuel as [|fuel]; [reflexivity|].
  cbn [_crawl_sitemaps].
  destruct (depth >? 3)%Z; [reflexivity|].
  rewrite sitemaps_loop_app. unfold bind, ret.
  destruct (sitemaps_loop _ sitemaps1 [] st) as [[first st1]|]; [|reflexivity].
  apply sitemaps_loop_acc.
Qed.

End ExpansionOrder.

(** ** What the same-domain test looks at *)

Section NetworkLocation.
Import PyStr Urllib Spec.

(** The network location is read after the scheme, up to the first
    delimiter. *)
Lemma netloc_urlparse (u : string) :
  netloc (urlparse u)
  = fst (split_netloc (snd (split_scheme (remove_unsafe (lstrip_c0 u))))).
Proof.
  unfold urlparse.
  destruct (split_scheme _) as [sch rest]. cbn [snd].
  destruct (split_netloc rest) as [loc rest1]. cbn [fst].
  destruct (cut "#" rest1) as [rest2 frag].
  destruct (cut "?" rest2) as [rest3 qry].
  now destruct (if existsb _ _ then _ else _).
Qed.




(** X7: the same-domain test of either class does not look at the
    scheme: [http://rest] and [https://rest] get the same answer against
    any base. *)
Theorem same_domain_ignores_scheme (base_url rest : string) :
  AsyncWebCrawler._is_same_domain base_url ("http://" ++ rest)
  = AsyncWebCrawler._is_same_domain base_url ("https://" ++ rest)
  /\ WebCrawler._is_same_domain base_url ("http://" ++ rest)
     = WebCrawler._is_same_domain base_url ("https://" ++ rest).
Proof.
  unfold AsyncWebCrawler._is_same_domain, WebCrawler._is_same_domain.
  assert (Hnet : netloc (urlparse ("http://" ++ rest))
                 = netloc (urlparse ("https://" ++ rest))).
  { rewrite !netloc_urlparse. reflexivity. }
  now rewrite Hnet.
Qed.



(** X9: for both classes, what [_normalize_url] returns never ends with
    a slash, and differs from its argument by the [https://] put before
    a URL without scheme and by slashes taken from the end. *)
Theorem normalize_no_trailing_slash (base : string) :
  (forall front, AsyncWebCrawler._normalize_url base <> (front ++ "/")%string)
  /\ (exists n,
         (if has_scheme base then base else "https://" ++ base)%string
         = (AsyncWebCrawler._normalize_url base
            ++ string_of_list_ascii (repeat "/"%char n))%string)
  /\ WebCrawler._normalize_url base = AsyncWebCrawler._normalize_url base.
Proof.
  rewrite normalize_unfold. split; [|split].
  - intros front. apply rstrip_no_trailing.
  - apply rstrip_decompose.
  - rewrite <- normalize_unfold. reflexivity.
Qed.

End NetworkLocation.

(** ** The order of the document *)

Section StringOrder.

Lemma ascii_compare_refl (a : ascii) : (a ?= a)%char = Eq.
Proof. unfold Ascii.compare. apply N.compare_refl. Qed.

Lemma string_lt_trans (a : string) :
  forall b c,
    (a ?= b)%string = Lt -> (b ?= c)%string = Lt -> (a ?= c)%string = Lt.
Proof.
  induction a as [|x a IH]; intros [|y b] [|z c]; cbn [String.compare];
    try discriminate; auto.
  destruct (x ?= y)%char eqn:Hxy; try discriminate;
    destruct (y ?= z)%char eqn:Hyz; try discriminate; intros Hab Hbc.
  - apply Ascii.compare_eq_iff in Hxy, Hyz. subst.
    rewrite ascii_compare_refl. eauto.
  - apply Ascii.compare_eq_iff in Hxy. subst. now rewrite Hyz.
  - apply Ascii.compare_eq_iff in Hyz. subst. now rewrite Hxy.
  - unfold Ascii.compare in *. rewrite N.compare_lt_iff in Hxy, Hyz.
    replace (N_of_ascii x ?= N_of_ascii z)%N with Lt; [reflexivity|].
    symmetry. apply N.compare_lt_iff. lia.
Qed.

Lemma string_ltb_asym (a b : string) :
  (a <? b)%string = true -> (b <? a)%string = false.
Proof.
  unfold String.ltb. rewrite (String.compare_antisym a b).
  now destruct (b ?= a)%string.
Qed.

Lemma string_ltb_irrefl (a : string) : (a <? a)%string = false.
Proof.
  destruct (a <? a)%string eqn:E; [|reflexivity].
  now rewrite (string_ltb_asym a a E) in E.
Qed.

(** [a <= b] and [b <= c] give [a <= c], where [a <= b] reads "[b] is
    not below [a]". *)
Lemma string_le_trans (a b c : string) :
  (b <? a)%string = false -> (c <? b)%string = false -> (c <? a)%string = false.
Proof.
  unfold String.ltb.
  destruct (b ?= a)%string eqn:Hba; try discriminate; intros _.
  - apply String.compare_eq_iff in Hba. now subst.
  - destruct (c ?= b)%string eqn:Hcb; try discriminate; intros _.
    + apply String.compare_eq_iff in Hcb. subst. now rewrite Hba.
    + rewrite String.compare_antisym in Hba, Hcb.
      destruct (a ?= b)%string eqn:Hab; try discriminate.
      destruct (b ?= c)%string eqn:Hbc; try discriminate.
      rewrite String.compare_antisym, (string_lt_trans a b c Hab Hbc).
      reflexivity.
Qed.

End StringOrder.

Section SortedFacts.
Import Generator.
Variable A : Type.
Variable lt : A -> A -> bool.
Hypothesis lt_asym : forall x y, lt x y = true -> lt y x = false.
Hypothesis le_trans :
  forall x y z, lt y x = false -> lt z y = false -> lt z x = false.

Lemma insert_Permutation (x : A) (l : list A) :
  Permutation (x :: l) (insert lt x l).
Proof.
  induction l as [|y l IH]; cbn [insert]; [reflexivity|].
  destruct (lt y x); [|reflexivity].
  rewrite perm_swap. now constructor.
Qed.

Lemma sorted_Permutation (l : list A) : Permutation l (sorted lt l).
Proof.
  induction l as [|x l IH]; cbn [sorted fold_right]; [constructor|].
  rewrite <- insert_Permutation. now constructor.
Qed.

Lemma insert_StronglySorted (x : A) (l : list A) :
  StronglySorted (fun a b => lt b a = false) l ->
  StronglySorted (fun a b => lt b a = false) (insert lt x l).
Proof.
  induction 1 as [|y l Hl IH Hy]; cbn [insert].
  - repeat constructor.
  - destruct (lt y x) eqn:Hyx.
    + constructor; [exact IH|].
      apply Forall_forall. intros z Hz.
      apply insert_In in Hz as [->|Hz]; [now apply lt_asym|].
      rewrite Forall_forall in Hy. now apply Hy.
    + constructor; [now constructor|].
      constructor; [exact Hyx|].
      rewrite Forall_forall in *. intros z Hz.
      apply (le_trans x y z Hyx). now apply Hy.
Qed.

Lemma sorted_StronglySorted (l : list A) :
  StronglySorted (fun a b => lt b a = false) (sorted lt l).
Proof.
  induction l as [|x l IH]; cbn [sorted fold_right]; [constructor|].
  now apply insert_StronglySorted.
Qed.

End SortedFacts.

Section DocumentOrder.
Import PyStr PyList Urllib Generator Spec.

(** Main comes before every other category; the others follow the order
    of their names. *)
Lemma category_lt_spec (x y : string) :
  category_lt x y = true
  <-> (x = "Main" /\ y <> "Main")
      \/ (x <> "Main" /\ y <> "Main" /\ (x <? y)%string = true).
Proof.
  unfold category_lt.
  destruct (String.eqb_spec x "Main") as [->|Hx],
           (String.eqb_spec y "Main") as [->|Hy]; cbn.
  - split; [discriminate | intros [[_ E]|(E & _)]; congruence].
  - split; [auto | reflexivity].
  - split; [discriminate | intros [[E _]|(_ & E & _)]; congruence].
  - split; [auto | intros [[E _]|(_ & _ & E)]; congruence].
Qed.

Lemma category_lt_asym (x y : string) :
  category_lt x y = true -> category_lt y x = false.
Proof.
  intros Hxy. destruct (category_lt y x) eqn:Hyx; [|reflexivity].
  apply category_lt_spec in Hxy, Hyx.
  destruct Hxy as [[Hx Hy]|(Hx & Hy & Hxy)],
           Hyx as [[Hy' Hx']|(Hy' & Hx' & Hyx)]; try congruence.
  now rewrite (string_ltb_asym x y Hxy) in Hyx.
Qed.

Lemma category_le_trans (x y z : string) :
  category_lt y x = false -> category_lt z y = false ->
  category_lt z x = false.
Proof.
  unfold category_lt.
  destruct (String.eqb_spec x "Main") as [->|Hx],
           (String.eqb_spec y "Main") as [->|Hy],
           (String.eqb_spec z "Main") as [->|Hz]; cbn; auto;
    try discriminate.
  apply string_le_trans.
Qed.

Lemma url_lt_asym (p q : PageInfo) : url_lt p q = true -> url_lt q p = false.
Proof. apply string_ltb_asym. Qed.

Lemma url_le_trans (p q r : PageInfo) :
  url_lt q p = false -> url_lt r q = false -> url_lt r p = false.
Proof. apply string_le_trans. Qed.

(** The keys of the dictionary are the categories of the pages, each
    where it is first seen. *)
Lemma keys_add_page_new (c : string) (p : PageInfo) (cats : Categories) :
  map fst (add_page c p cats) = append_new (map fst cats) c.
Proof.
  unfold append_new, mem.
  induction cats as [|[k v] cats IH]; [reflexivity|].
  cbn [add_page map fst existsb].
  rewrite (String.eqb_sym c k).
  destruct (k =? c)%string; cbn [orb map fst]; [reflexivity|].
  rewrite IH. now destruct (existsb (String.eqb c) (map fst cats)).
Qed.

Lemma keys_categorize_first_seen (pages : list PageInfo) :
  map fst (categorize pages) = first_seen (map category_of pages).
Proof.
  rewrite <- dict_fromkeys_first_seen. unfold categorize, dict_fromkeys.
  change (@nil string) with (map fst (@nil (string * list PageInfo))).
  generalize (@nil (string * list PageInfo)).
  induction pages as [|p pages IH]; intros cats; [reflexivity|].
  cbn [fold_left map]. now rewrite IH, keys_add_page_new.
Qed.

Lemma document_structure (today base_url : string) (pages : list PageInfo) :
  exists cats,
    document_lines today base_url pages
    = [("# " ++ fst (site_header base_url pages))%string; "";
       ("> " ++ snd (site_header base_url pages))%string; ""]
        ++ flat_map
             (fun c =>
                render_category
                  c (filter (fun p => (category_of p =? c)%string) pages))
             cats
        ++ [""; "---"; ("Generated by FreeLLMsTxt on " ++ today)%string;
            ("Source: " ++ base_url)%string]
    /\ NoDup cats
    /\ (forall c, In c cats <-> exists p, In p pages /\ category_of p = c)
    /\ StronglySorted (fun x y => category_lt y x = false) cats
    /\ (In "Main" cats -> exists rest, cats = "Main" :: rest).
Proof.
  exists (sorted category_lt (map fst (categorize pages))).
  pose proof (sorted_Permutation string category_lt
                (map fst (categorize pages))) as Hperm.
  pose proof (sorted_StronglySorted string category_lt category_lt_asym
                category_le_trans (map fst (categorize pages))) as Hsorted.
  split; [|split; [|split; [|split]]].
  - unfold document_lines.
    destruct (site_header base_url pages) as [site_title site_description].
    cbn [fst snd]. rewrite <- app_assoc. do 2 f_equal.
    apply flat_map_ext. intros c. now rewrite lookup_categorize.
  - apply (Permutation_NoDup Hperm).
    rewrite keys_categorize_first_seen. apply first_seen_NoDup.
  - intros c. rewrite sorted_In, keys_categorize_first_seen, first_seen_In,
      in_map_iff. split; intros (p & H1 & H2); eauto.
  - exact Hsorted.
  - intros Hmain.
    destruct (sorted category_lt (map fst (categorize pages))) as [|c rest];
      [destruct Hmain|].
    exists rest. f_equal.
    destruct Hmain as [Hc|Hmain]; [exact Hc|].
    apply StronglySorted_inv in Hsorted as [_ Hc].
    rewrite Forall_forall in Hc. specialize (Hc _ Hmain).
    destruct (String.eqb_spec c "Main") as [E|Hne]; [exact E|].
    assert (Hlt : category_lt "Main" c = true)
      by (apply category_lt_spec; auto).
    congruence.
Qed.

(** X10: the document is its four lines of header, one block for each
    category of the pages, and its four lines of trailer.  Each category
    has one block, which holds its pages; the block of Main comes first
    and the others follow in the order of their names. *)
Theorem document_categories (today base_url : string) (pages : list PageInfo) :
  exists cats,
    document_lines today base_url pages
    = [("# " ++ fst (site_header base_url pages))%string; "";
       ("> " ++ snd (site_header base_url pages))%string; ""]
        ++ flat_map
             (fun c =>
                render_category
                  c (filter (fun p => (category_of p =? c)%string) pages))
             cats
        ++ [""; "---"; ("Generated by FreeLLMsTxt on " ++ today)%string;
            ("Source: " ++ base_url)%string]
    /\ NoDup cats
    /\ (forall c, In c cats <-> exists p, In p pages /\ category_of p = c)
    /\ StronglySorted (fun x y => category_lt y x = false) cats
    /\ (In "Main" cats -> exists rest, cats = "Main" :: rest)
    /\ (forall x y,
           category_lt x y = true
           <-> (x = "Main" /\ y <> "Main")
               \/ (x <> "Main" /\ y <> "Main" /\ (x <? y)%string = true)).
Proof.
  destruct (document_structure today base_url pages)
    as (cats & Hdoc & Hnd & Hcats & Hsorted & Hmain).
  exists cats.
  split; [exact Hdoc|]. split; [exact Hnd|]. split; [exact Hcats|].
  split; [exact Hsorted|]. split; [exact Hmain | exact category_lt_spec].
Qed.

(** X11: under a heading, the bullets of a category are those of its
    pages, each once, in the order of their URLs. *)
Theorem heading_block_sorted (category : string) (cat_pages : list PageInfo) :
  (category =? "Main")%string && (length cat_pages =? 1)%nat = false ->
  exists ordered,
    render_category category cat_pages
    = [("## " ++ category)%string; ""] ++ map section_bullet ordered ++ [""]
    /\ Permutation cat_pages ordered
    /\ StronglySorted (fun p q => (url q <? url p)%string = false) ordered.
Proof.
  intros Hheading. exists (sorted url_lt cat_pages).
  unfold render_category. rewrite Hheading.
  split; [reflexivity|]. split.
  - apply sorted_Permutation.
  - apply (sorted_StronglySorted PageInfo url_lt url_lt_asym url_le_trans).
Qed.

Lemma heading_block_sorted_witness :
  exists ordered,
    render_category "Blog"
      [Samples.page "https://x.com/blog/b" "B" "";
       Samples.page "https://x.com/blog/a" "A" ""]
    = ["## Blog"; ""] ++ map section_bullet ordered ++ [""]
    /\ Permutation
         [Samples.page "https://x.com/blog/b" "B" "";
          Samples.page "https://x.com/blog/a" "A" ""]
         ordered
    /\ StronglySorted (fun p q => (url q <? url p)%string = false) ordered.
Proof.
  exact (heading_block_sorted "Blog"
           [Samples.page "https://x.com/blog/b" "B" "";
            Samples.page "https://x.com/blog/a" "A" ""] eq_refl).
Defined.

(** *** One bullet for each page *)

Lemma bullet_starts (link_title : string) (page : PageInfo) :
  startswith (bullet link_title page) "- [" = true.
Proof.
  unfold startswith, bullet. apply prefix_iff.
  destruct (truthy (description page)).
  - rewrite !append_assoc. eauto.
  - eauto.
Qed.

Lemma filter_flat_map (A B : Type) (f : B -> bool) (g : A -> list B)
      (l : list A) :
  filter f (flat_map g l) = flat_map (fun x => filter f (g x)) l.
Proof.
  induction l as [|x l IH]; [reflexivity|].
  cbn [flat_map]. now rewrite filter_app, IH.
Qed.


Lemma filter_bullets (ps : list PageInfo) :
  filter (fun line => startswith line "- [") (map section_bullet ps)
  = map section_bullet ps.
Proof.
  induction ps as [|p ps IH]; [reflexivity|].
  cbn [map filter]. unfold section_bullet at 1.
  now rewrite bullet_starts, IH.
Qed.

Lemma prefix_heading (category : string) :
  startswith ("## " ++ category) "- [" = false.
Proof. reflexivity. Qed.


Lemma filter_none (A : Type) (f : A -> bool) (l : list A) :
  (forall x, In x l -> f x = false) -> filter f l = [].
Proof.
  induction l as [|x l IH]; intros Hf; [reflexivity|].
  cbn [filter]. rewrite (Hf x) by now left.
  apply IH. intros y Hy. apply Hf. now right.
Qed.





(** *** The bullets are those of the pages *)

Lemma filter_disjoint (A : Type) (f g : A -> bool) (l : list A) :
  (forall x, f x = true -> g x = false) ->
  Permutation (filter f l ++ filter g l) (filter (fun x => f x || g x) l).
Proof.
  intros Hfg. induction l as [|x l IH]; [constructor|].
  cbn [filter]. destruct (f x) eqn:Hf.
  - rewrite (Hfg x Hf). cbn [orb app]. now constructor.
  - cbn [orb]. destruct (g x).
    + rewrite <- Permutation_middle. now constructor.
    + exact IH.
Qed.

Lemma filter_all (A : Type) (f : A -> bool) (l : list A) :
  (forall x, In x l -> f x = true) -> filter f l = l.
Proof.
  induction l as [|x l IH]; intros Hf; [reflexivity|].
  cbn [filter]. rewrite (Hf x) by now left.
  f_equal. apply IH. intros y Hy. apply Hf. now right.
Qed.

(** The pages of the categories, one category after the other, are the
    pages. *)
Lemma categories_partition (pages : list PageInfo) (cats : list string) :
  NoDup cats ->
  Permutation
    (flat_map (fun c => filter (fun p => (category_of p =? c)%string) pages)
              cats)
    (filter (fun p => mem (category_of p) cats) pages).
Proof.
  induction 1 as [|c cats Hc Hcats IH].
  - cbn [flat_map]. rewrite filter_none; [constructor | reflexivity].
  - cbn [flat_map]. rewrite IH.
    rewrite filter_disjoint.
    + apply Permutation_refl'. apply filter_ext. intros p.
      unfold mem. cbn [existsb]. reflexivity.
    + intros p Hp. apply String.eqb_eq in Hp. subst c.
      destruct (mem (category_of p) cats) eqn:Hm; [|reflexivity].
      apply mem_In in Hm. contradiction.
Qed.

Lemma flat_map_map (A B C : Type) (f : B -> C) (g : A -> list B) (l : list A) :
  flat_map (fun x => map f (g x)) l = map f (flat_map g l).
Proof.
  induction l as [|x l IH]; [reflexivity|].
  cbn [flat_map]. now rewrite map_app, IH.
Qed.

Lemma Permutation_flat_map_in (A B : Type) (g h : A -> list B) (l : list A) :
  (forall x, In x l -> Permutation (g x) (h x)) ->
  Permutation (flat_map g l) (flat_map h l).
Proof.
  induction l as [|x l IH]; intros Hgh; [constructor|].
  cbn [flat_map]. apply Permutation_app.
  - apply Hgh. now left.
  - apply IH. intros y Hy. apply Hgh. now right.
Qed.

(** In the block of a category stand the bullets of its pages. *)
Lemma render_category_bullets_of (pages : list PageInfo) (c : string) :
  Permutation
    (filter is_bullet
            (render_category
               c (filter (fun p => (category_of p =? c)%string) pages)))
    (map (bullet_of pages)
         (filter (fun p => (category_of p =? c)%string) pages)).
Proof.
  set (cat_pages := filter (fun p => (category_of p =? c)%string) pages).
  assert (Hsame : forall p, In p cat_pages ->
                            category_of p = c /\ same_category pages p = cat_pages).
  { intros p Hp. apply filter_In in Hp as [_ Hp].
    apply String.eqb_eq in Hp. split; [exact Hp|].
    unfold same_category. now rewrite Hp. }
  unfold render_category, is_bullet.
  destruct ((c =? "Main")%string && (length cat_pages =? 1)%nat) eqn:E.
  - pose proof E as E'.
    apply andb_true_iff in E' as [_ Hlen]. apply Nat.eqb_eq in Hlen.
    destruct cat_pages as [|p [|q rest]] eqn:Hcat; try discriminate.
    cbn [filter map]. unfold main_bullet at 1. rewrite bullet_starts.
    unfold bullet_of.
    destruct (Hsame p (or_introl eq_refl)) as [-> ->].
    cbn [length] in *. rewrite E. reflexivity.
  - cbn [app filter]. rewrite prefix_heading.
    rewrite filter_app, filter_bullets. cbn [filter startswith prefix].
    rewrite app_nil_r.
    rewrite <- (sorted_Permutation PageInfo url_lt cat_pages).
    apply Permutation_refl'. apply map_ext_in. intros p Hp.
    unfold bullet_of. destruct (Hsame p Hp) as [-> ->]. now rewrite E.
Qed.

(** X12: the entries of the document that start with ["- ["] are the
    bullets of the pages, one for each page: no page is left out and none
    is listed twice. *)
Theorem document_bullets (today base_url : string) (pages : list PageInfo) :
  Permutation (filter is_bullet (document_lines today base_url pages))
              (map (bullet_of pages) pages).
Proof.
  destruct (document_structure today base_url pages)
    as (cats & -> & Hnd & Hcats & _).
  rewrite !filter_app, filter_flat_map.
  unfold is_bullet at 1 3. cbn [filter].
  change (startswith ("# " ++ ?x) "- [") with false.
  change (startswith ("> " ++ ?x) "- [") with false.
  change (startswith ("Generated by FreeLLMsTxt on " ++ ?x) "- [") with false.
  change (startswith ("Source: " ++ ?x) "- [") with false.
  cbn [startswith prefix app]. rewrite app_nil_r.
  rewrite (Permutation_flat_map_in _ _ _ _ cats
             (fun c _ => render_category_bullets_of pages c)).
  rewrite flat_map_map. apply Permutation_map.
  rewrite (categories_partition pages cats Hnd).
  apply Permutation_refl'. apply filter_all.
  intros p Hp. apply mem_In, Hcats. eauto.
Qed.

End DocumentOrder.

(** ** The log of a crawl *)

Section Journal.
Context {H : HttpClient} {X : XmlParser} {P : HtmlParser} {U : UrlJoin}
        {C : CrawlerClass}.
Import PyStr PyList Spec.

Lemma appends_ret (A : Type) (a : A) : Appends (ret a).
Proof. intros st a' st' [= <- <-]. exists []. now rewrite app_nil_r. Qed.

Lemma appends_log (message : string) : Appends (_log message).
Proof. intros st a st' [= <- <-]. now exists [message]. Qed.

Lemma appends_fetch (u : string) : Appends (_fetch u).
Proof.
  intros st a st'. unfold _fetch, send, bind.
  destruct (http_get u (world st)) as [[body|] w].
  - intros [= <- <-]. exists []. cbn. now rewrite app_nil_r.
  - intros [= <- <-]. now exists [("⚠️ Failed: " ++ u)%string].
Qed.

Lemma appends_bind (A B : Type) (m : M A) (k : A -> M B) :
  Appends m -> (forall a, Appends (k a)) -> Appends (bind m k).
Proof.
  intros Hm Hk st b st' Hrun.
  apply bind_Some in Hrun as (a & st1 & Ha & Hb).
  destruct (Hm _ _ _ Ha) as [added1 H1].
  destruct (Hk a _ _ _ Hb) as [added2 H2].
  exists (added1 ++ added2). now rewrite H2, H1, app_assoc.
Qed.

Lemma appends_run (A : Type) (m : M A) (st st' : State) (a : A) :
  m st = Some (a, st') -> Appends m ->
  exists added, logs st' = logs st ++ added.
Proof. intros Hrun Hm. exact (Hm st a st' Hrun). Qed.

Lemma appends_variations_loop (self : Crawler) (patterns : list string) :
  Appends (variations_loop self patterns).
Proof.
  induction patterns as [|pattern patterns IH]; cbn [variations_loop].
  - apply appends_ret.
  - apply appends_bind; [apply appends_fetch|]. intros content.
    destruct (is_sitemap content); [|exact IH].
    apply appends_bind; [apply appends_log|]. intros _. apply appends_ret.
Qed.

Lemma appends_variations (self : Crawler) :
  Appends (_try_sitemap_variations self).
Proof.
  apply appends_bind; [apply appends_log|]. intros _.
  apply appends_variations_loop.
Qed.

Lemma appends_sitemaps_loop (recur : list string -> M (list string)) :
  (forall nested, Appends (recur nested)) ->
  forall todo all_urls, Appends (sitemaps_loop recur todo all_urls).
Proof.
  intros Hrecur todo.
  induction todo as [|sitemap_url todo IH]; intros all_urls;
    cbn [sitemaps_loop]; [apply appends_ret|].
  apply appends_bind; [apply appends_log|]. intros _.
  apply appends_bind; [apply appends_fetch|]. intros content.
  destruct (negb (truthy_opt content)); [apply IH|].
  destruct (_parse_sitemap (body_of content)) as [urls nested].
  destruct (nonempty nested); [|apply IH].
  apply appends_bind; [apply appends_log|]. intros _.
  apply appends_bind; [apply Hrecur|]. intros below. apply IH.
Qed.

Lemma appends_crawl_sitemaps (fuel : nat) :
  forall sitemap_urls depth, Appends (_crawl_sitemaps fuel sitemap_urls depth).
Proof.
  induction fuel as [|fuel IH]; intros sitemap_urls depth;
    cbn [_crawl_sitemaps]; [intros st a st'; discriminate|].
  destruct (depth >? 3)%Z; [apply appends_ret|].
  apply appends_sitemaps_loop. intros nested. apply IH.
Qed.

Lemma appends_homepage_loop (self : Crawler) (fuel : nat) :
  forall urls_to_visit visited discovered,
    Appends (homepage_loop self fuel urls_to_visit visited discovered).
Proof.
  induction fuel as [|fuel IH]; intros urls_to_visit visited discovered;
    cbn [homepage_loop]; [intros st a st'; discriminate|].
  destruct urls_to_visit as [|current_url queue]; [apply appends_ret|].
  destruct (_ <? _)%Z; [|apply appends_ret].
  destruct (mem current_url visited); [apply IH|].
  apply appends_bind; [apply appends_log|]. intros _.
  apply appends_bind; [apply appends_fetch|]. intros html.
  destruct (negb (truthy_opt html)); apply IH.
Qed.

Lemma appends_homepage (self : Crawler) (fuel : nat) :
  Appends (_crawl_from_homepage self fuel).
Proof.
  apply appends_bind; [apply appends_log|]. intros _.
  apply appends_homepage_loop.
Qed.

Lemma appends_pages_loop (self : Crawler) (total : nat) (urls : list string) :
  forall i pages, Appends (pages_loop self total i urls pages).
Proof.
  induction urls as [|page_url urls IH]; intros i pages; cbn [pages_loop];
    [apply appends_ret|].
  apply appends_bind; [apply appends_log|]. intros _.
  apply appends_bind; [apply appends_fetch|]. intros html.
  destruct (truthy_opt html); apply IH.
Qed.

Ltac appends :=
  repeat first
    [ apply appends_ret | apply appends_log | apply appends_fetch
    | apply appends_variations | apply appends_crawl_sitemaps
    | apply appends_homepage | apply appends_pages_loop
    | apply appends_bind; [|intros ?]
    | match goal with
      | |- Appends (if ?b then _ else _) => destruct b
      | |- Appends (let x := _ in _) => cbv zeta
      end ].

(** The discovery opens the log with its two lines and closes its part
    with the number of URLs it returns. *)
Lemma discover_urls_log (self : Crawler) (fuel : nat) (st st' : State)
      (unique_urls : list string) :
  discover_urls self fuel st = Some (unique_urls, st') ->
  exists discovery,
    logs st'
    = logs st
        ++ [("🚀 Starting crawl of " ++ base_url self)%string;
            "🤖 Checking robots.txt"]
        ++ discovery
        ++ [("📊 Discovered " ++ str (length unique_urls)
             ++ " unique URLs")%string].
Proof.
  unfold discover_urls. intros Hrun.
  rewrite (bind_step _ (log_run _ st)) in Hrun. cbv zeta in Hrun.
  rewrite (bind_step _ (log_run _ _)) in Hrun.
  apply bind_Some in Hrun as (robots_content & st1 & H1 & Hrun).
  apply appends_fetch in H1 as [added1 H1].
  apply bind_Some in Hrun as (sitemap_urls & st2 & H2 & Hrun).
  apply appends_run in H2 as [added2 A2]; [|appends].
  apply bind_Some in Hrun as (sitemap_urls' & st3 & H3 & Hrun).
  apply appends_run in H3 as [added3 A3]; [|appends].
  apply bind_Some in Hrun as (all_urls & st4 & H4 & Hrun).
  apply appends_run in H4 as [added4 A4]; [|appends].
  apply bind_Some in Hrun as (all_urls' & st5 & H5 & Hrun).
  apply appends_run in H5 as [added5 A5]; [|appends].
  rewrite (bind_step _ (log_run _ st5)) in Hrun.
  injection Hrun as <- <-.
  exists (added1 ++ added2 ++ added3 ++ added4 ++ added5).
  cbn [logged logs] in *.
  rewrite A5, A4, A3, A2, H1. rewrite <- !app_assoc. reflexivity.
Qed.

(** The extraction opens its part of the log with its line, and keeps at
    most one record for each URL. *)
Lemma crawl_pages_log (self : Crawler) (urls : list string) (st st' : State)
      (pages : list PageInfo) :
  crawl_pages self urls st = Some (pages, st') ->
  (length pages <= length urls)%nat
  /\ exists extraction,
      logs st'
      = logs st ++ ["📝 Extracting page information..."] ++ extraction.
Proof.
  intros Hrun. split.
  - rewrite (crawl_pages_result self urls st st' pages Hrun).
    apply length_extracted.
  - unfold crawl_pages in Hrun. rewrite (bind_step _ (log_run _ st)) in Hrun.
    apply appends_pages_loop in Hrun as [extraction Hlog].
    exists extraction. rewrite Hlog. cbn [logged logs].
    now rewrite <- app_assoc.
Qed.

(** X13: the log that [discover_and_crawl] returns is [self.logs] as the
    crawl leaves it: the lines that were there, the two opening lines, the
    lines of the discovery closed by the number of URLs found, the lines
    of the extraction, and the closing line with the number of page
    records returned, which is at most the number of URLs found. *)
Theorem crawl_log_shape (self : Crawler) (fuel : nat) (st st' : State)
        (pages : list PageInfo) (log : list string) :
  discover_and_crawl self fuel st = Some (pages, log, st') ->
  log = logs st'
  /\ exists (unique_urls discovery extraction : list string),
      (length pages <= length unique_urls)%nat
      /\ log
         = logs st
             ++ [("🚀 Starting crawl of " ++ base_url self)%string;
                 "🤖 Checking robots.txt"]
             ++ discovery
             ++ [("📊 Discovered " ++ str (length unique_urls)
                  ++ " unique URLs")%string;
                 "📝 Extracting page information..."]
             ++ extraction
             ++ [("✨ Complete! Crawled " ++ str (length pages)
                  ++ " pages")%string].
Proof.
  unfold discover_and_crawl. intros Hrun.
  apply bind_Some in Hrun as (unique_urls & st1 & Hurls & Hrun).
  apply bind_Some in Hrun as (pages' & st2 & Hpages & Hrun).
  rewrite (bind_step _ (log_run _ st2)) in Hrun.
  injection Hrun as <- <- <-.
  split; [reflexivity|].
  apply discover_urls_log in Hurls as [discovery Hd].
  apply crawl_pages_log in Hpages as [Hlen [extraction He]].
  exists unique_urls, discovery, extraction. split; [exact Hlen|].
  cbn [logged logs]. rewrite He, Hd. rewrite <- !app_assoc. reflexivity.
Qed.

End Journal.

Lemma crawl_log_shape_witness :
  exists pages log st',
    @discover_and_crawl Samples.mapped_web Samples.mapped_xml
      Samples.mapped_html Samples.absolute_join app_py
      (@__init__ app_py "x.com" 2) 0 Samples.mapped_start
    = Some (pages, log, st')
    /\ log = logs st'.
Proof.
  destruct (@discover_and_crawl Samples.mapped_web Samples.mapped_xml
              Samples.mapped_html Samples.absolute_join app_py
              (@__init__ app_py "x.com" 2) 0 Samples.mapped_start)
    as [[[pages log] st']|] eqn:Hrun.
  - exists pages, log, st'. split; [reflexivity|].
    exact (proj1 (@crawl_log_shape Samples.mapped_web Samples.mapped_xml
                    Samples.mapped_html Samples.absolute_join app_py
                    (@__init__ app_py "x.com" 2) 0 Samples.mapped_start st'
                    pages log Hrun)).
  - vm_compute in Hrun. discriminate Hrun.
Defined.

(** ** The answers of the routes *)

Section Answers.
Context {H : HttpClient} {X : XmlParser} {P : HtmlParser} {U : UrlJoin}.
Import PyStr PyList Generator Spec Routes.







End Answers.


